(** * ISCC core: a shallow embedding of the [iscc_core] Python package

    The development follows the package layout: Python values and
    exceptions, the codec ([codec.py]), the [Code] value object
    ([models.py]), the Meta-Code generator ([code_meta.py]), the Video-Code
    generator ([code_content_video.py]) and the discrete cosine transform
    ([dct.py]). *)

From Stdlib Require Import ZArith List String Ascii Bool Lia Arith.
From Stdlib Require ZifyBool.
From Stdlib.Strings Require Import Byte.
From Stdlib Require Import Permutation.
From Stdlib Require Import Reals Lra.
From Stdlib Require PrimFloat SpecFloat FloatOps Uint63.
Import ListNotations.

Local Open Scope Z_scope.

(** ** Python exceptions and fallible computations *)

(** [ValueError] is raised by the package itself and by [bitarray];
    [TypeError] by the hashing of an unhashable value;
    [UnicodeEncodeError] by [str.encode] on a lone surrogate.
    [HeaderMalformed], [InvalidBase32] and [InvalidBitLength] are the
    failures of the codec as the specification names them.  [OutOfFuel]
    marks a recursion bound that ran out; no function below ever returns
    it (see [dct_never_out_of_fuel]). *)
Inductive exn : Type :=
| ValueError
| TypeError
| UnicodeEncodeError
| HeaderMalformed
| InvalidBase32
| InvalidBitLength
| OutOfFuel.

Inductive result (A : Type) : Type :=
| Ok (a : A)
| Raise (e : exn).

Arguments Ok {A} a.
Arguments Raise {A} e.

Definition bind {A B} (m : result A) (k : A -> result B) : result B :=
  match m with
  | Ok a => k a
  | Raise e => Raise e
  end.

Notation "x <- m ;; k" := (bind m (fun x => k))
  (at level 61, m at next level, right associativity).
Notation "' p <- m ;; k" := (bind m (fun x => let p := x in k))
  (at level 61, p pattern, m at next level, right associativity).


(** ** Bytes and bit arrays *)

Definition bytes := list byte.
Definition bitarray := list bool.

(** Most significant bit first, as [bitarray] does by default. *)
Definition bits_of_byte (b : byte) : bitarray :=
  let '(b0, (b1, (b2, (b3, (b4, (b5, (b6, b7))))))) := Byte.to_bits b in
  [b7; b6; b5; b4; b3; b2; b1; b0].

Definition byte_of_bits (b7 b6 b5 b4 b3 b2 b1 b0 : bool) : byte :=
  Byte.of_bits (b0, (b1, (b2, (b3, (b4, (b5, (b6, b7))))))).

(** [bitarray.frombytes] *)
Definition frombytes (data : bytes) : bitarray := flat_map bits_of_byte data.

Definition byte_of_bitlist (l : bitarray) : byte :=
  byte_of_bits (nth 0 l false) (nth 1 l false) (nth 2 l false) (nth 3 l false)
               (nth 4 l false) (nth 5 l false) (nth 6 l false) (nth 7 l false).

(** [bitarray.tobytes]: a trailing partial byte is padded with zero bits. *)
Fixpoint tobytes (ba : bitarray) : bytes :=
  match ba with
  | [] => []
  | b7 :: b6 :: b5 :: b4 :: b3 :: b2 :: b1 :: b0 :: rest =>
      byte_of_bits b7 b6 b5 b4 b3 b2 b1 b0 :: tobytes rest
  | _ => [byte_of_bitlist ba]
  end.

(** Whole bytes of a bit stream; trailing bits that do not fill a byte are
    dropped (base32 decoding). *)
Fixpoint whole_bytes (ba : bitarray) : bytes :=
  match ba with
  | b7 :: b6 :: b5 :: b4 :: b3 :: b2 :: b1 :: b0 :: rest =>
      byte_of_bits b7 b6 b5 b4 b3 b2 b1 b0 :: whole_bytes rest
  | _ => []
  end.

(** Unsigned value of a bit list, most significant bit first. *)
Definition Z_of_bits (l : bitarray) : Z :=
  fold_left (fun acc (b : bool) => 2 * acc + (if b then 1 else 0)) l 0.

(** The [w] low bits of [v], most significant first ([int2ba]). *)
Fixpoint bits_of_Z (w : nat) (v : Z) : bitarray :=
  match w with
  | O => []
  | S w' => Z.testbit v (Z.of_nat w') :: bits_of_Z w' v
  end.

(** ** Codec ([codec.py]) *)

Module Codec.

(** Modelled from the spec: [encode_base32] of [codec.py], which is not in
    the sources.  RFC 4648 base32, upper-case alphabet, no padding: the bit
    stream is cut in groups of five, the last one filled with zero bits. *)
Definition b32_alphabet : list ascii :=
  list_ascii_of_string "ABCDEFGHIJKLMNOPQRSTUVWXYZ234567".

Definition b32_lower_alphabet : list ascii :=
  list_ascii_of_string "abcdefghijklmnopqrstuvwxyz234567".

Definition b32_char (g : bitarray) : ascii :=
  nth (Z.to_nat (Z_of_bits g)) b32_alphabet "A"%char.

Fixpoint b32_groups (bits : bitarray) : list bitarray :=
  match bits with
  | [] => []
  | a :: b :: c :: d :: e :: rest => [a; b; c; d; e] :: b32_groups rest
  | _ => [firstn 5 (bits ++ repeat false 4)]
  end.

Definition encode_base32 (data : bytes) : string :=
  string_of_list_ascii (map b32_char (b32_groups (frombytes data))).

(** [str.upper] and [str.lower] on ASCII text. *)
Definition ascii_upper (c : ascii) : ascii :=
  let n := nat_of_ascii c in
  if andb (Nat.leb 97 n) (Nat.leb n 122) then ascii_of_nat (n - 32) else c.

Definition ascii_lower (c : ascii) : ascii :=
  let n := nat_of_ascii c in
  if andb (Nat.leb 65 n) (Nat.leb n 90) then ascii_of_nat (n + 32) else c.

Definition upper (s : string) : string :=
  string_of_list_ascii (map ascii_upper (list_ascii_of_string s)).

Definition lower (s : string) : string :=
  string_of_list_ascii (map ascii_lower (list_ascii_of_string s)).

Fixpoint index_of (c : ascii) (l : list ascii) : option nat :=
  match l with
  | [] => None
  | x :: l' => if Ascii.eqb c x then Some O else option_map S (index_of c l')
  end.

Definition b32_value (c : ascii) : option bitarray :=
  option_map (fun i => bits_of_Z 5 (Z.of_nat i))
             (index_of (ascii_upper c) b32_alphabet).

Fixpoint b32_values (cs : list ascii) : option bitarray :=
  match cs with
  | [] => Some []
  | c :: cs' =>
      match b32_value c, b32_values cs' with
      | Some g, Some bits => Some (g ++ bits)
      | _, _ => None
      end
  end.

(** Modelled from the spec: [decode_base32] of [codec.py], which is not in
    the sources.  The inverse of [encode_base32]; the text is read without
    regard to case.  A character outside the alphabet, or a number of
    characters that no byte string encodes to (1, 3 or 6 beyond a multiple
    of 8), is [InvalidBase32]. *)
Definition decode_base32 (code : string) : result bytes :=
  let cs := list_ascii_of_string code in
  let r := Nat.modulo (List.length cs) 8 in
  if orb (Nat.eqb r 1) (orb (Nat.eqb r 3) (Nat.eqb r 6)) then Raise InvalidBase32
  else match b32_values cs with
       | Some bits => Ok (whole_bytes bits)
       | None => Raise InvalidBase32
       end.

(** Modelled from the spec: the header framing of [codec.py], which is not
    in the sources.  A field [v < 8] is one nibble holding [v]; a field
    [v >= 8] is the nibble [8 | (v & 7)] followed by the framing of
    [v >> 3]. *)
Fixpoint write_varnibble_fuel (fuel : nat) (v : Z) : bitarray :=
  if v <? 8 then bits_of_Z 4 v
  else match fuel with
       | O => bits_of_Z 4 v
       | S fuel' =>
           bits_of_Z 4 (Z.lor 8 (Z.land v 7))
             ++ write_varnibble_fuel fuel' (Z.shiftr v 3)
       end.

Definition write_varnibble (v : Z) : bitarray :=
  write_varnibble_fuel (Z.to_nat (Z.log2 v)) v.

(** Decoding reads nibbles until one has its high bit clear. *)
Fixpoint read_varnibble (bits : bitarray) : result (Z * bitarray) :=
  match bits with
  | c :: b2 :: b1 :: b0 :: rest =>
      let low := Z_of_bits [b2; b1; b0] in
      if c then
        '(high, rest') <- read_varnibble rest ;;
        Ok (Z.lor low (Z.shiftl high 3), rest')
      else Ok (low, rest)
  | _ => Raise HeaderMalformed
  end.

Definition Header : Type := (Z * Z * Z * Z)%type.

(** Nibbles are packed high nibble first, two per byte; an odd number of
    nibbles is completed by a zero nibble. *)
Definition fill_nibble (bits : bitarray) : bitarray :=
  if Nat.even (Nat.div (List.length bits) 4) then bits
  else bits ++ [false; false; false; false].

Definition write_header (h : Header) : bytes :=
  let '(mtype, stype, version, length) := h in
  tobytes (fill_nibble (write_varnibble mtype ++ write_varnibble stype
                          ++ write_varnibble version ++ write_varnibble length)).

(** Main types of the spec: META=0 ... ID=6; the version is always V0. *)
Definition MT_META : Z := 0.
Definition MT_SEMANTIC : Z := 1.
Definition MT_CONTENT : Z := 2.
Definition MT_DATA : Z := 3.
Definition MT_INSTANCE : Z := 4.
Definition MT_ISCC : Z := 5.
Definition MT_ID : Z := 6.
Definition ST_NONE : Z := 0.
Definition ST_CC_VIDEO : Z := 3.
Definition VS_V0 : Z := 0.

(** The enumerated ranges checked when a header is read.  [subtype_ok] is
    the table of sub-types per main type of [constants.py], which is not in
    the sources. *)
Definition header_ok (subtype_ok : Z -> Z -> bool) (h : Header) : bool :=
  let '(mtype, stype, version, length) := h in
  (0 <=? mtype) && (mtype <=? 6) && (0 <=? stype) && subtype_ok mtype stype
  && (version =? VS_V0) && (0 <=? length).

(** Modelled from the spec: [read_header] of [codec.py], the reverse of
    [write_header]; it fails when a continuation nibble is missing or an
    enumerated field is out of range. *)
Definition read_header (subtype_ok : Z -> Z -> bool) (data : bytes)
  : result (Header * bytes) :=
  let bits := frombytes data in
  '(mtype, r1) <- read_varnibble bits ;;
  '(stype, r2) <- read_varnibble r1 ;;
  '(version, r3) <- read_varnibble r2 ;;
  '(length, r4) <- read_varnibble r3 ;;
  let consumed := (List.length bits - List.length r4)%nat in
  let tail := if Nat.even (Nat.div consumed 4) then r4 else skipn 4 r4 in
  let h := (mtype, stype, version, length) in
  if header_ok subtype_ok h then Ok (h, tobytes tail)
  else Raise HeaderMalformed.

(** Modelled from the spec: [clean] of [codec.py], which is not in the
    sources.  An optional [ISCC:] prefix (in either case) is removed, and
    so are dashes and white space. *)
Definition is_separator (c : ascii) : bool :=
  let n := nat_of_ascii c in
  (Nat.eqb n 45) || (Nat.eqb n 32) || ((Nat.leb 9 n) && (Nat.leb n 13)).

Definition strip_scheme (cs : list ascii) : list ascii :=
  if String.eqb (lower (string_of_list_ascii (firstn 5 cs))) "iscc:"
  then skipn 5 cs else cs.

Definition clean (iscc : string) : string :=
  let cs := filter (fun c => negb (is_separator c)) (list_ascii_of_string iscc) in
  string_of_list_ascii (strip_scheme cs).

(** Unit length encoding: bit length [32 * (code + 1)], for a multiple of 32
    within [32, 256]. *)
Definition valid_bits (bits : Z) : bool :=
  (32 <=? bits) && (bits <=? 256) && (bits mod 32 =? 0).

Definition encode_length (bits : Z) : result Z :=
  if valid_bits bits then Ok (bits / 32 - 1) else Raise InvalidBitLength.

(** Modelled from the spec: [encode_component] of [codec.py], which is not
    in the sources: header, then the first [bit_length / 8] bytes of the
    digest, in base32.  It fails with [InvalidBitLength] when the bit
    length is not a multiple of 32 within [32, 256]. *)
Definition encode_component (mtype stype version bit_length : Z) (digest : bytes)
  : result string :=
  ln <- encode_length bit_length ;;
  let nbytes := Z.to_nat (bit_length / 8) in
  let header := write_header (mtype, stype, version, ln) in
  let body := firstn nbytes digest in
  Ok (encode_base32 (header ++ body)).

End Codec.

(** ** External collaborators

    Functions the package imports from libraries or from modules that are
    not part of the sources.  Every definition and theorem below is stated
    for an arbitrary choice of them. *)

(** A Python [str] is a sequence of code points. *)
Definition ustr := list Z.

Class External : Type := {
  (** [blake3(data).digest()] *)
  blake3 : bytes -> bytes;
  (** [str.lower] *)
  str_lower : ustr -> ustr;
  (** [collapse_text] of [code_content_text.py] *)
  collapse_text : ustr -> ustr;
  (** [encode_base64] of [codec.py] *)
  encode_base64 : bytes -> ustr;
  (** [wtahash] of [wtahash.py] *)
  wtahash : list Z -> result bytes;
  (** sub-type table of [constants.py] *)
  subtype_ok : Z -> Z -> bool;
  (** the n-gram widths among the core options of [options.py] *)
  meta_ngram_size_title : nat;
  meta_ngram_size_extra_text : nat;
  meta_ngram_size_extra_binary : nat
}.

(** ** The [Code] value object ([models.py]) *)

Module Models.
Import Codec.

Record Code : Type := mkCode {
  _head : Header;
  _body : bitarray
}.

(** The representations [Code.__init__] accepts ([IsccAny]); [AnyOther]
    stands for a value of any other type. *)
Inductive IsccAny : Type :=
| AnyCode (c : Code)
| AnyStr (s : string)
| AnyTuple (fields : Header * bytes)
| AnyBytes (b : bytes)
| AnyOther.

(** [ba2int(a, signed=False)]: the unsigned integer whose binary digits
    are the bits of [a]; [bitarray] refuses an empty bit array with
    [ValueError]. *)
Definition ba2int (a : bitarray) : result Z :=
  match a with
  | [] => Raise ValueError
  | _ :: _ => Ok (Z_of_bits a)
  end.

(** [bitarray.util.count_xor]: the number of positions where the two bit
    arrays differ; bit arrays of different lengths are refused. *)
Fixpoint count_diff (a b : bitarray) : Z :=
  match a, b with
  | x :: a', y :: b' => (if xorb x y then 1 else 0) + count_diff a' b'
  | _, _ => 0
  end.

Definition count_xor (a b : bitarray) : result Z :=
  if Nat.eqb (List.length a) (List.length b) then Ok (count_diff a b)
  else Raise ValueError.

Section WithExternal.
Context `{Ext : External}.

Definition hash_bytes (self : Code) : bytes := tobytes (_body self).

Definition header_bytes (self : Code) : bytes := write_header (_head self).

Definition Code_bytes (self : Code) : bytes :=
  (header_bytes self ++ tobytes (_body self))%list.

Definition code (self : Code) : string := encode_base32 (Code_bytes self).

Definition uri (self : Code) : string := ("iscc:" ++ lower (code self))%string.

Definition hash_uint (self : Code) : result Z := ba2int (_body self).

Definition maintype (self : Code) : Z := let '(mt, _, _, _) := _head self in mt.
Definition subtype (self : Code) : Z := let '(_, st, _, _) := _head self in st.
Definition version (self : Code) : Z := let '(_, _, vs, _) := _head self in vs.
Definition length_code (self : Code) : Z := let '(_, _, _, ln) := _head self in ln.

Definition Code_init (code : IsccAny) : result Code :=
  code_fields <-
    match code with
    | AnyCode c => Ok (_head c, hash_bytes c)
    | AnyStr s => data <- decode_base32 (clean s) ;; read_header subtype_ok data
    | AnyTuple fields => Ok fields
    | AnyBytes b => read_header subtype_ok b
    | AnyOther => Raise ValueError
    end ;;
  Ok {| _head := fst code_fields; _body := frombytes (snd code_fields) |}.

(** [Code.__xor__] *)
Definition Code_xor (self other : Code) : result Z :=
  count_xor (_body self) (_body other).

(** [Code.__eq__] *)
Definition Code_eq (self other : Code) : bool :=
  String.eqb (code self) (code other).

End WithExternal.

(** Number of one bits of a non-negative integer. *)
Fixpoint popcount_pos (p : positive) : Z :=
  match p with
  | xH => 1
  | xO p' => popcount_pos p'
  | xI p' => 1 + popcount_pos p'
  end.

Definition popcount (z : Z) : Z :=
  match z with
  | Zpos p => popcount_pos p
  | _ => 0
  end.

End Models.

(** ** Python text: UTF-8 and [str.strip] *)

Module Text.

Definition Z_of_byte (b : byte) : Z := Z.of_N (Byte.to_N b).

Definition byte_of_Z (z : Z) : byte :=
  match Byte.of_N (Z.to_N z) with
  | Some b => b
  | None => x00
  end.

(** Lone surrogates are code points of a [str] that UTF-8 cannot encode. *)
Definition is_surrogate (c : Z) : bool := (0xD800 <=? c) && (c <=? 0xDFFF).

Definition is_scalar (c : Z) : bool :=
  (0 <=? c) && (c <=? 0x10FFFF) && negb (is_surrogate c).

(** The bytes of one code point, as integers. *)
Definition utf8_char (c : Z) : list Z :=
  if c <? 0x80 then [c]
  else if c <? 0x800 then [0xC0 + c / 64; 0x80 + c mod 64]
  else if c <? 0x10000 then
    [0xE0 + c / 4096; 0x80 + (c / 64) mod 64; 0x80 + c mod 64]
  else [0xF0 + c / 262144; 0x80 + (c / 4096) mod 64;
        0x80 + (c / 64) mod 64; 0x80 + c mod 64].

(** A text that UTF-8 can encode: no lone surrogate. *)
Definition encodable (s : ustr) : Prop := Forall (fun c => is_scalar c = true) s.

(** The integer bytes of a text without surrogates. *)
Definition utf8_bytes (s : ustr) : list Z := flat_map utf8_char s.

(** [str.encode("utf-8")]: strict, so a surrogate raises
    [UnicodeEncodeError]. *)
Fixpoint encode_utf8 (s : ustr) : result bytes :=
  match s with
  | [] => Ok []
  | c :: s' =>
      if is_scalar c then
        bs <- encode_utf8 s' ;; Ok (map byte_of_Z (utf8_char c) ++ bs)
      else Raise UnicodeEncodeError
  end.

Definition is_cont (b : Z) : bool := (0x80 <=? b) && (b <=? 0xBF).

(** Range of the second byte after lead byte [b0] of a 3- or 4-byte
    sequence (overlong forms, surrogates and values above U+10FFFF are
    excluded here). *)
Definition second_ok (b0 b1 : Z) : bool :=
  if b0 =? 0xE0 then (0xA0 <=? b1) && (b1 <=? 0xBF)
  else if b0 =? 0xED then (0x80 <=? b1) && (b1 <=? 0x9F)
  else if b0 =? 0xF0 then (0x90 <=? b1) && (b1 <=? 0xBF)
  else if b0 =? 0xF4 then (0x80 <=? b1) && (b1 <=? 0x8F)
  else is_cont b1.

(** [bytes.decode("utf-8", "ignore")]: bytes that are not part of a
    well-formed sequence are skipped; a sequence cut short by the end of
    the data is dropped. *)
Fixpoint decode_ignore (bs : list Z) : ustr :=
  match bs with
  | [] => []
  | b0 :: r0 =>
      if b0 <? 0x80 then b0 :: decode_ignore r0
      else if (0xC2 <=? b0) && (b0 <=? 0xDF) then
        match r0 with
        | [] => []
        | b1 :: r1 =>
            if is_cont b1
            then (b0 - 0xC0) * 64 + (b1 - 0x80) :: decode_ignore r1
            else decode_ignore r0
        end
      else if (0xE0 <=? b0) && (b0 <=? 0xEF) then
        match r0 with
        | [] => []
        | b1 :: r1 =>
            if second_ok b0 b1 then
              match r1 with
              | [] => []
              | b2 :: r2 =>
                  if is_cont b2
                  then (b0 - 0xE0) * 4096 + (b1 - 0x80) * 64 + (b2 - 0x80)
                         :: decode_ignore r2
                  else decode_ignore r1
              end
            else decode_ignore r0
        end
      else if (0xF0 <=? b0) && (b0 <=? 0xF4) then
        match r0 with
        | [] => []
        | b1 :: r1 =>
            if second_ok b0 b1 then
              match r1 with
              | [] => []
              | b2 :: r2 =>
                  if is_cont b2 then
                    match r2 with
                    | [] => []
                    | b3 :: r3 =>
                        if is_cont b3
                        then (b0 - 0xF0) * 262144 + (b1 - 0x80) * 4096
                               + (b2 - 0x80) * 64 + (b3 - 0x80)
                               :: decode_ignore r3
                        else decode_ignore r2
                    end
                  else decode_ignore r1
              end
            else decode_ignore r0
        end
      else decode_ignore r0
  end.

Definition decode_utf8_ignore (data : bytes) : ustr :=
  decode_ignore (map Z_of_byte data).

(** White space in the sense of [str.isspace], which [str.strip] removes. *)
Definition py_isspace (c : Z) : bool :=
  ((0x09 <=? c) && (c <=? 0x0D)) || ((0x1C <=? c) && (c <=? 0x20))
  || (c =? 0x85) || (c =? 0xA0) || (c =? 0x1680)
  || ((0x2000 <=? c) && (c <=? 0x200A)) || (c =? 0x2028) || (c =? 0x2029)
  || (c =? 0x202F) || (c =? 0x205F) || (c =? 0x3000).

Fixpoint lstrip (s : ustr) : ustr :=
  match s with
  | [] => []
  | c :: s' => if py_isspace c then lstrip s' else s
  end.

Definition strip (s : ustr) : ustr := rev (lstrip (rev (lstrip s))).

(** The slice [data[:n]]. *)
Definition slice_to {A} (n : Z) (data : list A) : list A :=
  if n <? 0 then firstn (List.length data - Z.to_nat (- n)) data
  else firstn (Z.to_nat n) data.

(** [bytes.hex] *)
Definition hex_digit (n : Z) : ascii :=
  nth (Z.to_nat n) (list_ascii_of_string "0123456789abcdef") "0"%char.

Definition hex (data : bytes) : string :=
  string_of_list_ascii
    (flat_map (fun b => [hex_digit (Z_of_byte b / 16); hex_digit (Z_of_byte b mod 16)])
              data).

End Text.

(** ** Meta-Code ([code_meta.py]) *)

Module CodeMeta.
Import Codec Text.

(** Modelled from the spec: the trim sizes among the core options of
    [options.py], which is not in the sources.  (The n-gram widths are
    taken as parameters, see [External].) *)
Definition meta_trim_title : Z := 128.
Definition meta_trim_extra : Z := 4096.

(** A value passed where [Union[str, bytes, None]] is expected; [POther]
    stands for a value of any other type, and records whether the value
    is hashable (an int or a tuple of ints is; a list, a dict or a
    bytearray is not). *)
Inductive pyval : Type :=
| PNone
| PStr (s : ustr)
| PBytes (b : bytes)
| POther (hashable : bool).

(** The [ISCC] object of [schema.py] with the fields set here. *)
Record ISCC : Type := mkISCC {
  iscc : string;
  name : option ustr;
  description : option ustr;
  metahash : string
}.

(** Modelled from the spec: [sliding_window] of [utils.py], which is not in
    the sources: the windows of [width] consecutive items; a sequence
    shorter than the width is its own single window. *)
Definition sliding_window {A} (seq : list A) (width : nat) : list (list A) :=
  map (fun i => firstn width (skipn i seq))
      (List.seq 0 (Nat.max (List.length seq - width + 1) 1)).

(** Modelled from the spec: [similarity_hash] of [simhash.py], which is not
    in the sources.  Bit [j] of the result is set iff the votes of the
    digests ([+1] for a set bit, [-1] for a clear one) sum to more than
    zero.  Every call supplies at least one digest. *)
Definition vote (j : nat) (digests : list bitarray) : Z :=
  fold_right (fun d acc => (if nth j d false then 1 else -1) + acc) 0 digests.

Definition similarity_hash (hash_digests : list bytes) : bytes :=
  match hash_digests with
  | [] => []
  | d :: _ =>
      let n_bits := (8 * List.length d)%nat in
      let ds := map frombytes hash_digests in
      tobytes (map (fun j => 0 <? vote j ds) (List.seq 0 n_bits))
  end.

(** [more_itertools.sliced] *)
Fixpoint sliced_fuel {A} (fuel : nat) (seq : list A) (n : nat) : list (list A) :=
  match fuel, seq with
  | S fuel', _ :: _ => firstn n seq :: sliced_fuel fuel' (skipn n seq) n
  | _, _ => []
  end.

Definition sliced {A} (seq : list A) (n : nat) : list (list A) :=
  sliced_fuel (List.length seq) seq n.

(** [more_itertools.interleave] of two iterables: items in turn until the
    shorter one is exhausted. *)
Fixpoint interleave {A} (xs ys : list A) : list A :=
  match xs, ys with
  | x :: xs', y :: ys' => x :: y :: interleave xs' ys'
  | _, _ => []
  end.

(** The digest the specification describes: the first 16 bytes of the
    title hash [t] and of the extra hash [e], in 4-byte chunks, a title
    chunk first and then alternating. *)
Definition interleave_chunks (t e : bytes) : bytes :=
  (firstn 4 t ++ firstn 4 e
   ++ firstn 4 (skipn 4 t) ++ firstn 4 (skipn 4 e)
   ++ firstn 4 (skipn 8 t) ++ firstn 4 (skipn 8 e)
   ++ firstn 4 (skipn 12 t) ++ firstn 4 (skipn 12 e))%list.

Fixpoint mapM {A B} (f : A -> result B) (l : list A) : result (list B) :=
  match l with
  | [] => Ok []
  | a :: l' => b <- f a ;; bs <- mapM f l' ;; Ok (b :: bs)
  end.

(** The bytes whose hash is the [metahash], for a normalised name and a
    description as [gen_meta_code_v0] receives it. *)
Definition payload_of (name : ustr) (description : pyval) (payload : bytes) : Prop :=
  match description with
  | PNone | PStr [] => encode_utf8 name = Ok payload
  | PStr s => encode_utf8 s = Ok payload
  | PBytes b => payload = b
  | POther _ => False
  end.

(** [trim_text] *)
Definition trim_text (text : ustr) (nbytes : Z) : result ustr :=
  data <- encode_utf8 text ;;
  Ok (strip (decode_utf8_ignore (slice_to nbytes data))).

Section WithExternal.
Context `{Ext : External}.

(** [[blake3(s.encode("utf-8")).digest() for s in n_grams]] *)
Definition text_digests (n_grams : list ustr) : result (list bytes) :=
  mapM (fun s => data <- encode_utf8 s ;; Ok (blake3 data)) n_grams.

Definition title_simhash (title : ustr) : result bytes :=
  let title := str_lower title in
  let title_n_grams := sliding_window title meta_ngram_size_title in
  title_hash_digests <- text_digests title_n_grams ;;
  Ok (similarity_hash title_hash_digests).

(** The test whether [extra] is in the set of [None], the empty str and
    the empty bytes.  The membership test of a set hashes [extra], so it
    raises [TypeError] for an unhashable value. *)
Definition is_empty_extra (extra : pyval) : result bool :=
  match extra with
  | PNone | PStr [] | PBytes [] => Ok true
  | PStr _ | PBytes _ | POther true => Ok false
  | POther false => Raise TypeError
  end.

Definition extra_simhash (extra : pyval) : result bytes :=
  match extra with
  | PBytes b =>
      let extra_n_grams := sliding_window b meta_ngram_size_extra_binary in
      Ok (similarity_hash (map blake3 extra_n_grams))
  | PStr s =>
      let extra := str_lower s in
      let extra_n_grams := sliding_window extra meta_ngram_size_extra_text in
      extra_hash_digests <- text_digests extra_n_grams ;;
      Ok (similarity_hash extra_hash_digests)
  | _ => Raise ValueError
  end.

(** [soft_hash_meta_v0] *)
Definition soft_hash_meta_v0 (title : ustr) (extra : pyval) : result bytes :=
  simhash_digest <- title_simhash title ;;
  is_empty <- is_empty_extra extra ;;
  if is_empty then Ok simhash_digest
  else
    extra_simhash_digest <- extra_simhash extra ;;
    let chunks_simhash_digest := sliced (firstn 16 simhash_digest) 4 in
    let chunks_extra_simhash_digest := sliced (firstn 16 extra_simhash_digest) 4 in
    let interleaved := interleave chunks_simhash_digest chunks_extra_simhash_digest in
    Ok (List.concat interleaved).

(** [gen_meta_code_v0]; [name] may be [None]. *)
Definition gen_meta_code_v0 (name : option ustr) (description : pyval) (bits : Z)
  : result ISCC :=
  let name := match name with None => [] | Some n => n end in
  let name := collapse_text name in
  name <- trim_text name meta_trim_title ;;
  '(description, metahash_payload) <-
    match description with
    | PNone | PStr [] =>
        payload <- encode_utf8 name ;; Ok (PNone, payload)
    | PStr s =>
        payload <- encode_utf8 s ;;
        d <- trim_text (collapse_text s) meta_trim_extra ;;
        Ok (PStr d, payload)
    | PBytes b => Ok (PBytes (slice_to meta_trim_extra b), b)
    | POther _ => Raise ValueError
    end ;;
  digest <- soft_hash_meta_v0 name description ;;
  meta_code <- encode_component MT_META ST_NONE VS_V0 bits digest ;;
  let iscc := ("ISCC:" ++ meta_code)%string in
  let metahash := hex (blake3 metahash_payload) in
  let description :=
    match description with
    | PBytes b => Some (encode_base64 b)
    | PStr d => Some d
    | _ => None
    end in
  let name := match name with [] => None | _ => Some name end in
  Ok {| iscc := iscc; name := name; description := description;
        metahash := metahash |}.

End WithExternal.

End CodeMeta.

(** ** Content-Code Video ([code_content_video.py]) *)

Module CodeContentVideo.
Import Codec.

(** A frame signature is a tuple of integers. *)
Definition FrameSig := list Z.

(** The object returned by the generator, with its [code] property set. *)
Record VideoCode : Type := mkVideoCode { video_code : string }.

(** [set(frame_signatures)], in the order of first occurrence.  The order
    in which Python iterates over a set is not specified; see
    [vecsum_Permutation] for why it does not matter here. *)
Definition py_set (frame_signatures : list FrameSig) : list FrameSig :=
  nodup (list_eq_dec Z.eq_dec) frame_signatures.

(** [zip] of the unpacked rows: the columns, as far as the shortest row
    reaches. *)
Definition min_length (rows : list FrameSig) : nat :=
  match rows with
  | [] => O
  | r :: rows' => fold_right (fun x acc => Nat.min (List.length x) acc) (List.length r) rows'
  end.

Definition zip_star (rows : list FrameSig) : list (list Z) :=
  map (fun j => map (fun r => nth j r 0) rows) (List.seq 0 (min_length rows)).

(** [sum(col)] *)
Definition sum (col : list Z) : Z := fold_left Z.add col 0.

(** The list of the column sums of [sigs]. *)
Definition vecsum (sigs : list FrameSig) : list Z := map sum (zip_star sigs).

Section WithExternal.
Context `{Ext : External}.

(** [hash_video_v0] *)
Definition hash_video_v0 (frame_signatures : list FrameSig) : result bytes :=
  let sigs := py_set frame_signatures in
  wtahash (vecsum sigs).

(** [gen_video_code_v0] *)
Definition gen_video_code_v0 (frame_signatures : list FrameSig) (bits : Z)
  : result VideoCode :=
  digest <- hash_video_v0 frame_signatures ;;
  code <- encode_component MT_CONTENT ST_CC_VIDEO VS_V0 bits digest ;;
  Ok {| video_code := code |}.

End WithExternal.

End CodeContentVideo.

(** ** Discrete cosine transform ([dct.py]) *)

Module DCT.

(** The arithmetic the transform uses on vector elements.  [coef i n] is
    [math.cos((i + 0.5) * math.pi / n) * 2.0], which is never zero for
    [i < n / 2], so the division does not fail. *)
Class Arith (T : Type) : Type := {
  zero : T;
  add : T -> T -> T;
  sub : T -> T -> T;
  div : T -> T -> T;
  coef : nat -> nat -> T
}.

Section Generic.
Context {T : Type} `{Arith T}.

(** [v[-(i + 1)]] and [v[-1]] for a list of length [n]. *)
Definition from_end (v : list T) (i : nat) : T :=
  nth (List.length v - (i + 1)) v zero.

Fixpoint dct_fuel (fuel : nat) (v : list T) : result (list T) :=
  let n := List.length v in
  if Nat.eqb n 1 then Ok v
  else if Nat.eqb n 0 || negb (Nat.eqb (Nat.modulo n 2) 0) then Raise ValueError
  else
    match fuel with
    | O => Raise OutOfFuel
    | S fuel' =>
        let half := Nat.div n 2 in
        let alpha := map (fun i => add (nth i v zero) (from_end v i)) (seq 0 half) in
        let beta :=
          map (fun i => div (sub (nth i v zero) (from_end v i)) (coef i n))
              (seq 0 half) in
        alpha <- dct_fuel fuel' alpha ;;
        beta <- dct_fuel fuel' beta ;;
        let result :=
          flat_map (fun i => [nth i alpha zero;
                              add (nth i beta zero) (nth (i + 1) beta zero)])
                   (seq 0 (half - 1)) in
        Ok (result ++ [from_end alpha 0; from_end beta 0])
    end.

(** [dct]; the recursion halves the length, so [length v] levels are more
    than enough. *)
Definition dct (v : list T) : result (list T) := dct_fuel (List.length v) v.

End Generic.

(** [n] is a power of two (and so at least 1). *)
Definition is_pow2 (n : nat) : Prop := exists k : nat, n = Nat.pow 2 k.

End DCT.

(** *** The transform in exact arithmetic

    The recursion of [dct.py] evaluated over the real numbers: addition,
    subtraction, division and the cosine are exact.  This is the
    arithmetic in which the specification writes the DCT-II sum; Python
    evaluates the same recursion on binary64 floats (see [DCTFloat]). *)

Module DCTReal.
Import DCT.
Local Open Scope R_scope.




End DCTReal.

(** *** The transform on floats

    The elements [dct.py] declares are Python floats: IEEE 754 binary64
    numbers with correctly rounded (to nearest, ties to even) addition,
    subtraction, multiplication and division, which is what the primitive
    floats are.  [math.cos] is the cosine of the C library, whose results
    the standard does not fix: it is a parameter. *)

Module DCTFloat.
Import DCT.
Import PrimFloat SpecFloat FloatOps.

(** [math.pi] *)
Definition pi : float := 0x1.921fb54442d18p+1%float.

(** The float of an index or a length (a Python [int] in a float
    operation). *)
Definition float_of_nat (n : nat) : float := of_uint63 (Uint63.of_Z (Z.of_nat n)).

Section WithCos.
Variable cos : float -> float.

#[local] Instance float_arith : Arith float := {|
  DCT.zero := 0%float;
  DCT.add := PrimFloat.add;
  DCT.sub := PrimFloat.sub;
  DCT.div := PrimFloat.div;
  DCT.coef := fun i n => (cos ((float_of_nat i + 0.5) * pi / float_of_nat n) * 2)%float
|}.


End WithCos.



End DCTFloat.

(** ** BLAKE3 on short messages

    The hash function of the [blake3] package, for messages of at most
    one chunk (1024 bytes).  It serves to run the generators on the test
    vectors of the package. *)

Module Blake3.
Import Text.

Definition word (z : Z) : Z := z mod 4294967296.

Definition rotr (x : Z) (n : Z) : Z :=
  word (Z.lor (Z.shiftr x n) (Z.shiftl x (32 - n))).

Definition IV : list Z :=
  [0x6A09E667; 0xBB67AE85; 0x3C6EF372; 0xA54FF53A;
   0x510E527F; 0x9B05688C; 0x1F83D9AB; 0x5BE0CD19].

Definition MSG_PERMUTATION : list nat :=
  [2; 6; 3; 10; 7; 0; 4; 13; 1; 11; 12; 5; 9; 14; 15; 8]%nat.

Definition CHUNK_START : Z := 1.
Definition CHUNK_END : Z := 2.
Definition ROOT : Z := 8.

Fixpoint set_nth (i : nat) (x : Z) (l : list Z) : list Z :=
  match l, i with
  | [], _ => []
  | _ :: l', O => x :: l'
  | y :: l', S i' => y :: set_nth i' x l'
  end.

(** The quarter round. *)
Definition g (state : list Z) (a b c d : nat) (mx my : Z) : list Z :=
  let va := nth a state 0 in
  let vb := nth b state 0 in
  let vc := nth c state 0 in
  let vd := nth d state 0 in
  let va := word (va + vb + mx) in
  let vd := rotr (Z.lxor vd va) 16 in
  let vc := word (vc + vd) in
  let vb := rotr (Z.lxor vb vc) 12 in
  let va := word (va + vb + my) in
  let vd := rotr (Z.lxor vd va) 8 in
  let vc := word (vc + vd) in
  let vb := rotr (Z.lxor vb vc) 7 in
  set_nth a va (set_nth b vb (set_nth c vc (set_nth d vd state))).

Definition round (state m : list Z) : list Z :=
  let w i := nth i m 0 in
  let s := g state 0 4 8 12 (w 0%nat) (w 1%nat) in
  let s := g s 1 5 9 13 (w 2%nat) (w 3%nat) in
  let s := g s 2 6 10 14 (w 4%nat) (w 5%nat) in
  let s := g s 3 7 11 15 (w 6%nat) (w 7%nat) in
  let s := g s 0 5 10 15 (w 8%nat) (w 9%nat) in
  let s := g s 1 6 11 12 (w 10%nat) (w 11%nat) in
  let s := g s 2 7 8 13 (w 12%nat) (w 13%nat) in
  g s 3 4 9 14 (w 14%nat) (w 15%nat).

Definition permute (m : list Z) : list Z :=
  map (fun i => nth i m 0) MSG_PERMUTATION.

Fixpoint rounds (n : nat) (state m : list Z) : list Z :=
  match n with
  | O => state
  | S O => round state m
  | S n' => rounds n' (round state m) (permute m)
  end.

(** The compression function; the result is the 16-word output state. *)
Definition compress (cv block_words : list Z) (counter block_len flags : Z) : list Z :=
  let state :=
    (cv ++ firstn 4 IV ++ [word counter; word (Z.shiftr counter 32); block_len; flags])%list in
  let state := rounds 7 state block_words in
  (map (fun i => Z.lxor (nth i state 0) (nth (i + 8) state 0)) (seq 0 8)
   ++ map (fun i => Z.lxor (nth (i + 8) state 0) (nth i cv 0)) (seq 0 8))%list.

(** Sixteen little-endian words of a block, which is filled with zero
    bytes. *)
Definition block_to_words (block : list Z) : list Z :=
  map (fun i => nth (4 * i) block 0 + 256 * nth (4 * i + 1) block 0
                + 65536 * nth (4 * i + 2) block 0
                + 16777216 * nth (4 * i + 3) block 0)
      (seq 0 16).

(** The blocks of a chunk but the last: each adds to the chaining
    value. *)
Fixpoint absorb (fuel : nat) (cv : list Z) (data : list Z) (first : bool)
  : list Z * list Z * bool :=
  match fuel with
  | O => (cv, data, first)
  | S fuel' =>
      if (Nat.leb (List.length data) 64) then (cv, data, first)
      else
        let flags := if first then CHUNK_START else 0 in
        let out := compress cv (block_to_words (firstn 64 data)) 0 64 flags in
        absorb fuel' (firstn 8 out) (skipn 64 data) false
  end.

(** The output state of the last block, which is the root. *)
Definition chunk_output (message : bytes) : list Z :=
  let data := map Z_of_byte (firstn 1024 message) in
  let '(cv, last, first) := absorb 16 IV data true in
  let flags := Z.lor (Z.lor (if first then CHUNK_START else 0) CHUNK_END) ROOT in
  compress cv (block_to_words last) 0 (Z.of_nat (List.length last)) flags.

(** The 32-byte digest of a message of at most 1024 bytes: the first
    eight words of the output, in little-endian order. *)
Definition blake3_chunk (message : bytes) : bytes :=
  map (fun i => byte_of_Z (Z.shiftr (nth (Nat.div i 4) (chunk_output message) 0)
                                    (8 * Z.of_nat (Nat.modulo i 4))
                           mod 256))
      (seq 0 32).

End Blake3.

(** ** Sample data

    An instance of the external collaborators and a few values, used to
    run the definitions on concrete inputs: the hash is BLAKE3 (for short
    messages), lower-casing covers the letters A to Z, and the other
    functions are placeholders.  The n-gram widths are those with which
    the test vector of the package ([tests/test_schema.py]: the code
    [AAAWKLHFXNSF7NNE] for the name [Hello] and the description [World])
    is reproduced: 3 for the title -- the specification says 4 -- and 3
    for the description. *)

Module Samples.
Import Codec Models.

(** Sub-types as far as the specification lists them: five for CONTENT,
    [NONE] for the other main types. *)
Definition sample_subtype_ok (mtype stype : Z) : bool :=
  if mtype =? MT_CONTENT then stype <=? 4 else stype =? ST_NONE.

(** [str.lower] on the letters A to Z; other code points are kept. *)
Definition ascii_str_lower (s : ustr) : ustr :=
  map (fun c => if (65 <=? c) && (c <=? 90) then c + 32 else c) s.

(** The texts [Hello] and [World]. *)
Definition hello : ustr := [72; 101; 108; 108; 111].
Definition world : ustr := [87; 111; 114; 108; 100].

#[export] Instance sample_external : External := {|
  blake3 := Blake3.blake3_chunk;
  str_lower := ascii_str_lower;
  collapse_text := fun s => s;
  encode_base64 := fun _ => [];
  wtahash := fun v => Ok (repeat xff 32);
  subtype_ok := sample_subtype_ok;
  meta_ngram_size_title := 3;
  meta_ngram_size_extra_text := 3;
  meta_ngram_size_extra_binary := 3
|}.

Definition sample_body : bytes := [x65; x2c; xe5; xbb; x64; x5f; xb5; xa4].

(** A 64-bit Meta-Code and a 64-bit Data-Code. *)
Definition meta_code : Code :=
  {| _head := (MT_META, ST_NONE, VS_V0, 1); _body := frombytes sample_body |}.

(** What the Meta-Code generator returns for the name [World] and the
    empty bytes object as description (see
    [C3_metahash_of_empty_bytes_witness]). *)
Definition empty_bytes_result : CodeMeta.ISCC :=
  {| CodeMeta.iscc := "ISCC:AAAWIX5VUSOJDSQH";
     CodeMeta.name := Some world;
     CodeMeta.description := Some [];
     CodeMeta.metahash :=
       "af1349b9f5f9a1a6a0404dea36dcc9499bcb25c9adc112b7cc9a93cae41f3262" |}.

Definition data_code : Code :=
  {| _head := (MT_DATA, ST_NONE, VS_V0, 1);
     _body := frombytes [x65; x2c; xe5; xbb; x64; x5f; xb5; xa7] |}.

(** A second choice of the collaborators, for inputs longer than one
    BLAKE3 chunk and for the Video-Code: the digest is a stand-in that is
    cheap to evaluate (the last bytes of the message, last byte first,
    filled up to 32 bytes) and [wtahash] shows the low byte of each
    entry of the vector it is given. *)
Definition plain_external : External := {|
  blake3 := fun data => firstn 32 (rev data ++ repeat x00 32);
  str_lower := ascii_str_lower;
  collapse_text := fun s => s;
  encode_base64 := fun _ => [];
  wtahash := fun v => Ok (map (fun z => Text.byte_of_Z (z mod 256)) v);
  subtype_ok := sample_subtype_ok;
  meta_ngram_size_title := 3;
  meta_ngram_size_extra_text := 3;
  meta_ngram_size_extra_binary := 3
|}.

(** Two byte strings of more than 4096 bytes that agree on the first
    4096 and differ afterwards. *)
Definition long_bytes_1 : bytes := (repeat x61 4096 ++ [x62])%list.
Definition long_bytes_2 : bytes := (repeat x61 4096 ++ [x63; x64])%list.

End Samples.

(** ** Tactics *)

Ltac zlia := Z.div_mod_to_equations; lia.

(** Decide the next test of the decoder from the ranges in the context. *)
Ltac resolve_if :=
  match goal with
  | |- context [if ?b then _ else _] =>
      lazymatch b with
      | context [if _ then _ else _] => fail
      | _ => idtac
      end;
      first [ let E := fresh in assert (E : b = true) by zlia; rewrite E; clear E
            | let E := fresh in assert (E : b = false) by zlia; rewrite E; clear E
            | destruct b eqn:? ]
  end.

Ltac finish := first [ reflexivity | f_equal; zlia | exfalso; zlia ].

(** ** Further representations of a [Code] ([models.py]) *)

Module ModelsRepr.
Import Codec Models Text.

(** [int.from_bytes(data, "big", signed=False)] *)
Definition int_from_bytes (data : bytes) : Z :=
  fold_left (fun acc b => 256 * acc + Z_of_byte b) data 0.

(** [Code.uint], which is also [Code.__hash__] *)
Definition uint (self : Code) : Z := int_from_bytes (Code_bytes self).

Definition Code_hash (self : Code) : Z := uint self.

(** [Code.hex] *)
Definition Code_hex (self : Code) : string := hex (Code_bytes self).

(** [bitarray.util.ba2hex]: one digit for every four bits; a bit array
    whose length is not a multiple of 4 is refused. *)
Fixpoint ba2hex (a : bitarray) : result (list ascii) :=
  match a with
  | [] => Ok []
  | b3 :: b2 :: b1 :: b0 :: rest =>
      digits <- ba2hex rest ;;
      Ok (hex_digit (Z_of_bits [b3; b2; b1; b0]) :: digits)
  | _ => Raise ValueError
  end.

(** [Code.hash_hex] *)
Definition hash_hex (self : Code) : result string :=
  digits <- ba2hex (_body self) ;; Ok (string_of_list_ascii digits).

(** [Code.__iter__], collected in a tuple: the header fields, then the
    hash bytes. *)
Definition Code_iter (self : Code) : Header * bytes :=
  (_head self, hash_bytes self).

(** Modelled from the spec: [MC_PREFIX] of [constants.py], which is not in
    the sources: the two bytes [0xCC 0x01]. *)
Definition MC_PREFIX : bytes := [xcc; x01].

(** [Code.mc_bytes] *)
Definition mc_bytes (self : Code) : bytes := (MC_PREFIX ++ Code_bytes self)%list.

(** [Code.mf_base16] *)
Definition mf_base16 (self : Code) : string := ("f" ++ hex (mc_bytes self))%string.

(** [Code.mf_base32] *)
Definition mf_base32 (self : Code) : string :=
  ("b" ++ lower (encode_base32 (mc_bytes self)))%string.

End ModelsRepr.

(** ** More sample data *)

Module SamplesMore.
Import Samples.

(** What the Meta-Code generator returns for the name [Hello] and the
    description [World] with the sample collaborators: the code and the
    metahash of the test vector of the package. *)
Definition hello_world_result : CodeMeta.ISCC :=
  {| CodeMeta.iscc := "ISCC:AAAWKLHFXNSF7NNE";
     CodeMeta.name := Some hello;
     CodeMeta.description := Some world;
     CodeMeta.metahash :=
       "bf73d18575a736e4037d45f9e316085b86c19be6363de6aa789e13deaacc1c4e" |}.

End SamplesMore.

(** * Properties *)

(** ** Bit arrays *)

Lemma bits_of_byte_length (b : byte) : List.length (bits_of_byte b) = 8%nat.
Proof.
  unfold bits_of_byte.
  destruct (Byte.to_bits b) as [b0 [b1 [b2 [b3 [b4 [b5 [b6 b7]]]]]]].
  reflexivity.
Qed.

Lemma byte_of_bits_of_byte (b : byte) (rest : bitarray) :
  exists b7 b6 b5 b4 b3 b2 b1 b0,
    (bits_of_byte b ++ rest = b7 :: b6 :: b5 :: b4 :: b3 :: b2 :: b1 :: b0 :: rest)%list
    /\ byte_of_bits b7 b6 b5 b4 b3 b2 b1 b0 = b.
Proof.
  unfold bits_of_byte, byte_of_bits.
  pose proof (Byte.of_bits_to_bits b) as E.
  destruct (Byte.to_bits b) as [b0 [b1 [b2 [b3 [b4 [b5 [b6 b7]]]]]]].
  exists b7, b6, b5, b4, b3, b2, b1, b0. split; [reflexivity | exact E].
Qed.

Lemma bits_of_byte_of_bits (b7 b6 b5 b4 b3 b2 b1 b0 : bool) :
  bits_of_byte (byte_of_bits b7 b6 b5 b4 b3 b2 b1 b0)
  = [b7; b6; b5; b4; b3; b2; b1; b0].
Proof.
  unfold bits_of_byte, byte_of_bits. rewrite Byte.to_bits_of_bits. reflexivity.
Qed.

Lemma tobytes_app_byte (b : byte) (rest : bitarray) :
  tobytes (bits_of_byte b ++ rest) = b :: tobytes rest.
Proof.
  destruct (byte_of_bits_of_byte b rest) as (b7 & b6 & b5 & b4 & b3 & b2 & b1 & b0 & E & Eb).
  rewrite E. cbn [tobytes]. now rewrite Eb.
Qed.

Lemma tobytes_frombytes_app (data : bytes) (rest : bitarray) :
  tobytes (frombytes data ++ rest) = (data ++ tobytes rest)%list.
Proof.
  induction data as [|b data IH]; [reflexivity|].
  unfold frombytes in *. cbn [flat_map]. rewrite <- app_assoc, tobytes_app_byte.
  now rewrite IH.
Qed.

Lemma tobytes_frombytes (data : bytes) : tobytes (frombytes data) = data.
Proof.
  rewrite <- (app_nil_r (frombytes data)), tobytes_frombytes_app.
  apply app_nil_r.
Qed.

Lemma frombytes_app (a b : bytes) :
  frombytes (a ++ b) = (frombytes a ++ frombytes b)%list.
Proof. unfold frombytes. apply flat_map_app. Qed.

Lemma frombytes_length (data : bytes) :
  List.length (frombytes data) = (8 * List.length data)%nat.
Proof.
  induction data as [|b data IH]; [reflexivity|].
  unfold frombytes in *. cbn [flat_map]. rewrite length_app, bits_of_byte_length, IH.
  cbn [List.length]. lia.
Qed.

Lemma whole_bytes_frombytes_app (data : bytes) (rest : bitarray) :
  whole_bytes (frombytes data ++ rest) = (data ++ whole_bytes rest)%list.
Proof.
  induction data as [|b data IH]; [reflexivity|].
  unfold frombytes in *. cbn [flat_map]. rewrite <- app_assoc.
  destruct (byte_of_bits_of_byte b (flat_map bits_of_byte data ++ rest))
    as (b7 & b6 & b5 & b4 & b3 & b2 & b1 & b0 & E & Eb).
  rewrite E. cbn [whole_bytes]. now rewrite Eb, IH.
Qed.

Lemma whole_bytes_short (l : bitarray) :
  (List.length l < 8)%nat -> whole_bytes l = [].
Proof.
  intros Hl.
  do 8 (destruct l as [|? l]; [reflexivity|]). cbn [List.length] in Hl. lia.
Qed.

(** A bit array whose length is a multiple of 8 is the image of its bytes. *)
Lemma frombytes_tobytes (k : nat) (ba : bitarray) :
  List.length ba = (8 * k)%nat -> frombytes (tobytes ba) = ba.
Proof.
  revert ba. induction k as [|k IH]; intros ba Hl.
  - destruct ba; [reflexivity | discriminate].
  - do 8 (destruct ba as [|? ba]; [cbn [List.length] in Hl; lia|]).
    cbn [tobytes]. unfold frombytes in *. cbn [flat_map].
    rewrite bits_of_byte_of_bits. cbn [app]. do 8 f_equal.
    apply IH. cbn [List.length] in Hl. lia.
Qed.

(** ** Base32 *)

Module CodecFacts.
Import Codec.

Lemma b32_groups_spec (bits : bitarray) :
  exists k : nat,
    (k < 5)%nat
    /\ List.concat (b32_groups bits) = (bits ++ repeat false k)%list
    /\ Forall (fun g => List.length g = 5%nat) (b32_groups bits)
    /\ (5 * List.length (b32_groups bits) = List.length bits + k)%nat.
Proof.
  assert (Hle : (List.length bits <= List.length bits)%nat) by lia.
  revert Hle. generalize (List.length bits) at 2. intros n.
  revert bits. induction n as [|n IH]; intros bits Hle.
  - destruct bits; [|cbn in Hle; lia].
    exists 0%nat. cbn. repeat split; try lia. constructor.
  - destruct bits as [|a [|b [|c [|d [|e rest]]]]].
    + exists 0%nat. cbn. repeat split; try lia. constructor.
    + exists 4%nat. cbn. repeat split; try lia. repeat constructor.
    + exists 3%nat. cbn. repeat split; try lia. repeat constructor.
    + exists 2%nat. cbn. repeat split; try lia. repeat constructor.
    + exists 1%nat. cbn. repeat split; try lia. repeat constructor.
    + destruct (IH rest) as (k & Hk & Hc & Hf & Hl).
      { cbn [List.length] in Hle. lia. }
      exists k. cbn [b32_groups List.concat List.length app].
      rewrite Hc. repeat split; try lia.
      * constructor; [reflexivity | exact Hf].
Qed.

Lemma b32_value_char (g : bitarray) :
  List.length g = 5%nat -> b32_value (b32_char g) = Some g.
Proof.
  intros Hg.
  destruct g as [|a [|b [|c [|d [|e [|]]]]]]; try discriminate.
  destruct a, b, c, d, e; reflexivity.
Qed.

Lemma b32_values_chars (groups : list bitarray) :
  Forall (fun g => List.length g = 5%nat) groups ->
  b32_values (map b32_char groups) = Some (List.concat groups).
Proof.
  induction 1 as [|g groups Hg _ IH]; [reflexivity|].
  cbn [map b32_values List.concat]. now rewrite b32_value_char, IH.
Qed.

Lemma list_ascii_of_string_of_list (l : list ascii) :
  list_ascii_of_string (string_of_list_ascii l) = l.
Proof. apply list_ascii_of_string_of_list_ascii. Qed.

(** Property 5 of the specification: decoding an encoded byte string gives
    it back. *)
Lemma decode_encode_base32 (data : bytes) :
  decode_base32 (encode_base32 data) = Ok data.
Proof.
  unfold decode_base32, encode_base32.
  rewrite list_ascii_of_string_of_list, length_map.
  destruct (b32_groups_spec (frombytes data)) as (k & Hk & Hc & Hf & Hl).
  rewrite frombytes_length in Hl.
  assert (Hr : let r := Nat.modulo (List.length (b32_groups (frombytes data))) 8 in
               (Nat.eqb r 1 || (Nat.eqb r 3 || Nat.eqb r 6)) = false).
  { cbv zeta.
    set (m := List.length (b32_groups (frombytes data))) in *.
    pose proof (Nat.div_mod_eq m 8) as Hm.
    pose proof (Nat.mod_upper_bound m 8 ltac:(lia)) as Hb.
    destruct (Nat.eqb_spec (m mod 8) 1); [lia|].
    destruct (Nat.eqb_spec (m mod 8) 3); [lia|].
    destruct (Nat.eqb_spec (m mod 8) 6); [lia|]. reflexivity. }
  cbv zeta in Hr. rewrite Hr.
  rewrite (b32_values_chars _ Hf), Hc, whole_bytes_frombytes_app.
  rewrite whole_bytes_short by (rewrite repeat_length; lia).
  now rewrite app_nil_r.
Qed.

(** Every character of an encoded text is a letter or a digit of the
    alphabet. *)
Lemma b32_char_in_alphabet (g : bitarray) :
  List.length g = 5%nat -> In (b32_char g) b32_alphabet.
Proof.
  intros Hg.
  destruct g as [|a [|b [|c [|d [|e [|]]]]]]; try discriminate.
  destruct a, b, c, d, e; cbv; tauto.
Qed.

Lemma encode_base32_alphabet (data : bytes) :
  Forall (fun c => In c b32_alphabet) (list_ascii_of_string (encode_base32 data)).
Proof.
  unfold encode_base32. rewrite list_ascii_of_string_of_list.
  destruct (b32_groups_spec (frombytes data)) as (k & _ & _ & Hf & _).
  induction Hf as [|g groups Hg _ IH]; constructor; auto using b32_char_in_alphabet.
Qed.

End CodecFacts.

(** ** Header framing *)

Module HeaderFacts.
Import Codec.

Lemma low_bits_value (v : Z) :
  Z_of_bits [Z.testbit v 2; Z.testbit v 1; Z.testbit v 0] = v mod 8.
Proof.
  unfold Z_of_bits. cbn [fold_left].
  change (if Z.testbit v 2 then 1 else 0) with (Z.b2z (Z.testbit v 2)).
  change (if Z.testbit v 1 then 1 else 0) with (Z.b2z (Z.testbit v 1)).
  change (if Z.testbit v 0 then 1 else 0) with (Z.b2z (Z.testbit v 0)).
  rewrite !Z.testbit_spec' by lia.
  change (2 ^ 2) with 4. change (2 ^ 1) with 2. change (2 ^ 0) with 1.
  Z.div_mod_to_equations. lia.
Qed.

Lemma nibble_small (v : Z) :
  0 <= v < 8 ->
  bits_of_Z 4 v = [false; Z.testbit v 2; Z.testbit v 1; Z.testbit v 0].
Proof.
  intros Hv. cbn [bits_of_Z]. f_equal.
  change (Z.of_nat 3) with (Z.succ 2). rewrite Z.bits_above_log2; [reflexivity|lia|].
  destruct (Z.eq_dec v 0) as [->|]; [cbn; lia|].
  apply Z.log2_lt_pow2; [lia | change (2 ^ Z.succ 2) with 8; lia].
Qed.

Lemma nibble_continued (v : Z) :
  bits_of_Z 4 (Z.lor 8 (Z.land v 7))
  = [true; Z.testbit v 2; Z.testbit v 1; Z.testbit v 0].
Proof.
  cbn [bits_of_Z]. rewrite !Z.lor_spec, !Z.land_spec.
  cbn [Z.of_nat Pos.of_succ_nat Pos.succ].
  change (Z.testbit 8 3) with true. change (Z.testbit 8 2) with false.
  change (Z.testbit 8 1) with false. change (Z.testbit 8 0) with false.
  change (Z.testbit 7 2) with true. change (Z.testbit 7 1) with true.
  change (Z.testbit 7 0) with true.
  cbn [orb]. now rewrite !andb_true_r.
Qed.

Lemma recompose (v : Z) :
  0 <= v -> Z.lor (v mod 8) (Z.shiftl (Z.shiftr v 3) 3) = v.
Proof.
  intros Hv. apply Z.bits_inj'. intros n Hn.
  rewrite Z.lor_spec. change 8 with (2 ^ 3).
  destruct (Z.lt_ge_cases n 3) as [Hlt|Hge].
  - rewrite Z.mod_pow2_bits_low by lia.
    rewrite Z.shiftl_spec_low by lia. apply orb_false_r.
  - rewrite Z.mod_pow2_bits_high by lia.
    rewrite Z.shiftl_spec_high by lia.
    rewrite Z.shiftr_spec by lia. cbn [orb]. f_equal. lia.
Qed.

Lemma read_write_varnibble_fuel (fuel : nat) :
  forall (v : Z) (rest : bitarray),
    0 <= v -> Z.log2 v <= Z.of_nat fuel ->
    read_varnibble (write_varnibble_fuel fuel v ++ rest) = Ok (v, rest).
Proof.
  induction fuel as [|fuel IH]; intros v rest Hv Hlog.
  - assert (Hsmall : v < 8).
    { destruct (Z.lt_ge_cases v 8) as [|Hge]; [assumption|].
      pose proof (Z.log2_le_mono 8 v Hge) as Hm. change (Z.log2 8) with 3 in Hm. lia. }
    cbn [write_varnibble_fuel]. destruct (Z.ltb_spec v 8); [|lia].
    rewrite nibble_small by lia. cbn [app read_varnibble].
    rewrite low_bits_value, Z.mod_small by lia. reflexivity.
  - cbn [write_varnibble_fuel]. destruct (Z.ltb_spec v 8) as [Hs|Hb].
    + rewrite nibble_small by lia. cbn [app read_varnibble].
      rewrite low_bits_value, Z.mod_small by lia. reflexivity.
    + rewrite nibble_continued. cbn [app read_varnibble].
      rewrite IH.
      * cbn [bind]. rewrite low_bits_value, recompose by lia. reflexivity.
      * apply Z.shiftr_nonneg. lia.
      * rewrite Z.log2_shiftr by lia. lia.
Qed.

Lemma read_write_varnibble (v : Z) (rest : bitarray) :
  0 <= v -> read_varnibble (write_varnibble v ++ rest) = Ok (v, rest).
Proof.
  intros Hv. apply read_write_varnibble_fuel; [assumption|].
  pose proof (Z.log2_nonneg v). lia.
Qed.

Lemma write_varnibble_fuel_length (fuel : nat) (v : Z) :
  exists m : nat, List.length (write_varnibble_fuel fuel v) = (4 * m)%nat.
Proof.
  revert v. induction fuel as [|fuel IH]; intros v; cbn [write_varnibble_fuel].
  - exists 1%nat. now destruct (v <? 8).
  - destruct (v <? 8); [now exists 1%nat|].
    destruct (IH (Z.shiftr v 3)) as [m Hm].
    exists (S m). rewrite length_app, Hm. cbn [bits_of_Z List.length]. lia.
Qed.

Lemma header_bits_length (h : Header) :
  let '(mtype, stype, version, length) := h in
  exists m : nat,
    List.length (write_varnibble mtype ++ write_varnibble stype
                   ++ write_varnibble version ++ write_varnibble length)
    = (4 * m)%nat.
Proof.
  destruct h as [[[mt st] vs] ln]. unfold write_varnibble.
  destruct (write_varnibble_fuel_length (Z.to_nat (Z.log2 mt)) mt) as [m1 H1].
  destruct (write_varnibble_fuel_length (Z.to_nat (Z.log2 st)) st) as [m2 H2].
  destruct (write_varnibble_fuel_length (Z.to_nat (Z.log2 vs)) vs) as [m3 H3].
  destruct (write_varnibble_fuel_length (Z.to_nat (Z.log2 ln)) ln) as [m4 H4].
  exists (m1 + m2 + m3 + m4)%nat. rewrite !length_app, H1, H2, H3, H4. lia.
Qed.

Lemma fill_nibble_bytes (bits : bitarray) (m : nat) :
  List.length bits = (4 * m)%nat ->
  exists k : nat, List.length (fill_nibble bits) = (8 * k)%nat.
Proof.
  intros Hl. unfold fill_nibble. rewrite Hl.
  replace (4 * m / 4)%nat with m by (rewrite Nat.mul_comm, Nat.div_mul; lia).
  destruct (Nat.even m) eqn:Em.
  - apply Nat.even_spec in Em. destruct Em as [k ->]. exists k. lia.
  - assert (Ho : Nat.odd m = true) by (rewrite <- Nat.negb_even, Em; reflexivity).
    apply Nat.odd_spec in Ho. destruct Ho as [k ->]. exists (S k).
    rewrite length_app, Hl. cbn [List.length]. lia.
Qed.

(** Reading a written header gives the fields and the bytes that follow
    it. *)
Lemma read_write_header (subtype_ok : Z -> Z -> bool) (h : Header) (body : bytes) :
  header_ok subtype_ok h = true ->
  read_header subtype_ok (write_header h ++ body) = Ok (h, body).
Proof.
  intros Hok. pose proof (header_bits_length h) as Hlen.
  destruct h as [[[mt st] vs] ln]. destruct Hlen as [m Hm].
  assert (Hok' := Hok). unfold header_ok in Hok'.
  repeat (apply andb_prop in Hok'; destruct Hok' as [Hok' ?]).
  assert (Hmt : 0 <= mt) by lia. assert (Hst : 0 <= st) by lia.
  assert (Hvs : 0 <= vs) by (unfold VS_V0 in *; lia). assert (Hln : 0 <= ln) by lia.
  unfold read_header, write_header.
  set (hb := (write_varnibble mt ++ write_varnibble st
                ++ write_varnibble vs ++ write_varnibble ln)%list) in *.
  destruct (fill_nibble_bytes hb m Hm) as [k Hk].
  rewrite frombytes_app, (frombytes_tobytes k) by exact Hk.
  set (tl := frombytes body).
  assert (Hpad : exists pad,
             fill_nibble hb = (hb ++ pad)%list
             /\ (if Nat.even (List.length hb / 4) then (pad ++ tl)%list
                 else skipn 4 (pad ++ tl)) = tl).
  { unfold fill_nibble. destruct (Nat.even (List.length hb / 4)).
    - exists []. now rewrite app_nil_r.
    - exists [false; false; false; false]. split; reflexivity. }
  destruct Hpad as (pad & Hfill & Htail). rewrite Hfill.
  unfold hb at 1. rewrite <- !app_assoc.
  rewrite read_write_varnibble by assumption. cbn [bind].
  rewrite read_write_varnibble by assumption. cbn [bind].
  rewrite read_write_varnibble by assumption. cbn [bind].
  rewrite read_write_varnibble by assumption. cbn [bind].
  rewrite Hok.
  fold hb.
  replace (List.length (hb ++ pad ++ tl) - List.length (pad ++ tl))%nat
    with (List.length hb) by (rewrite (length_app hb); lia).
  match goal with
  | |- Ok (_, tobytes ?x) = _ => assert (E : x = tl) by exact Htail; rewrite E
  end.
  unfold tl. now rewrite tobytes_frombytes.
Qed.

(** An encoded text has no separator and no scheme prefix to remove. *)
Lemma alphabet_no_separator :
  Forall (fun c => is_separator c = false /\ ascii_lower c <> ":"%char) b32_alphabet.
Proof. repeat constructor; discriminate. Qed.

Lemma clean_base32 (data : bytes) : clean (encode_base32 data) = encode_base32 data.
Proof.
  unfold clean.
  pose proof (CodecFacts.encode_base32_alphabet data) as Ha.
  set (cs := list_ascii_of_string (encode_base32 data)) in *.
  assert (Hprop : Forall (fun c => is_separator c = false /\ ascii_lower c <> ":"%char) cs).
  { pose proof alphabet_no_separator as Hn. rewrite Forall_forall in *.
    intros c Hc. apply Hn, Ha, Hc. }
  assert (Hfilter : filter (fun c => negb (is_separator c)) cs = cs).
  { clear Ha. induction Hprop as [|c l [Hc _] _ IH]; [reflexivity|].
    cbn [filter]. now rewrite Hc, IH. }
  rewrite Hfilter. unfold strip_scheme.
  destruct (String.eqb_spec (lower (string_of_list_ascii (firstn 5 cs))) "iscc:")
    as [E|_].
  - exfalso. unfold lower in E. rewrite list_ascii_of_string_of_list_ascii in E.
    apply (f_equal list_ascii_of_string) in E.
    rewrite list_ascii_of_string_of_list_ascii in E.
    assert (Hin : In ":"%char (map ascii_lower (firstn 5 cs))).
    { rewrite E. cbn. tauto. }
    apply in_map_iff in Hin. destruct Hin as (c & Hc & Hin).
    assert (Hin' : In c cs).
    { rewrite <- (firstn_skipn 5 cs). apply in_or_app. now left. }
    clear Hin. rename Hin' into Hin. rewrite Forall_forall in Hprop.
    destruct (Hprop c Hin) as [_ Hne]. contradiction.
  - unfold cs. apply string_of_list_ascii_of_string.
Qed.

End HeaderFacts.

(** ** The [Code] value object *)

Module ModelsFacts.
Import Codec Models.

Section WithExternal.
Context `{Ext : External}.

Lemma Code_init_body (x : IsccAny) (c : Code) :
  Code_init x = Ok c -> exists data : bytes, _body c = frombytes data.
Proof.
  unfold Code_init. intros E.
  destruct (match x with
            | AnyCode c0 => Ok (_head c0, hash_bytes c0)
            | AnyStr s => data <- decode_base32 (clean s) ;; read_header subtype_ok data
            | AnyTuple fields => Ok fields
            | AnyBytes b => read_header subtype_ok b
            | AnyOther => Raise ValueError
            end) as [fields|e]; [|discriminate].
  cbn [bind] in E. injection E as <-. now exists (snd fields).
Qed.

Lemma Code_bytes_frombytes (h : Header) (data : bytes) :
  Code_bytes {| _head := h; _body := frombytes data |} = (write_header h ++ data)%list.
Proof. unfold Code_bytes, header_bytes. cbn [_head _body]. now rewrite tobytes_frombytes. Qed.

Lemma parse_serialize (h : Header) (data : bytes) :
  header_ok subtype_ok h = true ->
  let c := {| _head := h; _body := frombytes data |} in
  Code_init (AnyStr (code c)) = Ok c.
Proof.
  intros Hok c. unfold Code_init, code. subst c.
  rewrite Code_bytes_frombytes, HeaderFacts.clean_base32, CodecFacts.decode_encode_base32.
  cbn [bind]. rewrite HeaderFacts.read_write_header by assumption.
  reflexivity.
Qed.

(** C1.  Round trip: for every [Code] object [c] built by the constructor
    from a representation with a valid header (fields non-negative, main
    type, sub-type and version within their enumerations), parsing the
    base32 text [c.code] with the constructor gives a [Code] that is equal
    to [c] -- equal as [Code.__eq__] compares, and in fact the same head
    and body. *)
Theorem C1_parse_serialize_round_trip (x : IsccAny) (c : Code) :
  Code_init x = Ok c ->
  header_ok subtype_ok (_head c) = true ->
  exists c' : Code,
    Code_init (AnyStr (code c)) = Ok c' /\ Code_eq c' c = true /\ c' = c.
Proof.
  intros Hinit Hok.
  destruct (Code_init_body x c Hinit) as [data Hbody].
  destruct c as [h body]. cbn [_head _body] in *. subst body.
  exists {| _head := h; _body := frombytes data |}.
  split; [apply (parse_serialize h data Hok)|].
  split; [apply String.eqb_refl | reflexivity].
Qed.

End WithExternal.

Lemma C1_parse_serialize_round_trip_witness :
  exists c' : Code,
    Code_init (Ext := Samples.sample_external) (AnyStr (code Samples.meta_code)) = Ok c'
    /\ Code_eq c' Samples.meta_code = true /\ c' = Samples.meta_code.
Proof.
  apply (C1_parse_serialize_round_trip (Ext := Samples.sample_external)
           (AnyTuple (MT_META, ST_NONE, VS_V0, 1, Samples.sample_body))
           Samples.meta_code);
    reflexivity.
Defined.

(** *** The URI *)

(** C5, as the code has it.  The URI text form of every [Code] is the
    lower-case prefix [iscc:] followed by the lower-case unpadded base32
    encoding of header bytes and body bytes: the characters after the
    prefix are lower-case letters and the digits 2 to 7, and putting them
    in upper case gives the standard base32 form back. *)
Theorem C5_uri_lowercase (c : Code) :
  uri c = ("iscc:" ++ lower (encode_base32 (header_bytes c ++ hash_bytes c)%list))%string
  /\ Forall (fun ch => In ch b32_lower_alphabet)
            (list_ascii_of_string (lower (encode_base32 (header_bytes c ++ hash_bytes c)%list)))
  /\ upper (lower (encode_base32 (header_bytes c ++ hash_bytes c)%list))
     = encode_base32 (header_bytes c ++ hash_bytes c)%list.
Proof.
  split; [reflexivity|].
  pose proof (CodecFacts.encode_base32_alphabet (header_bytes c ++ hash_bytes c)%list) as Ha.
  assert (Hc : Forall (fun ch => In (ascii_lower ch) b32_lower_alphabet
                                 /\ ascii_upper (ascii_lower ch) = ch) b32_alphabet).
  { apply Forall_forall. intros ch Hch.
    assert (Hb : forallb (fun ch => existsb (Ascii.eqb (ascii_lower ch)) b32_lower_alphabet
                                    && Ascii.eqb (ascii_upper (ascii_lower ch)) ch)
                         b32_alphabet = true) by (vm_compute; reflexivity).
    rewrite forallb_forall in Hb. specialize (Hb ch Hch).
    apply andb_prop in Hb. destruct Hb as [Hin Hup].
    apply existsb_exists in Hin. destruct Hin as (x & Hx & Ex).
    apply Ascii.eqb_eq in Ex. apply Ascii.eqb_eq in Hup.
    split; [now rewrite Ex | exact Hup]. }
  unfold upper, lower. rewrite !list_ascii_of_string_of_list_ascii.
  rewrite <- (string_of_list_ascii_of_string
                (encode_base32 (header_bytes c ++ hash_bytes c)%list)) at 3.
  set (cs := list_ascii_of_string (encode_base32 (header_bytes c ++ hash_bytes c)%list)) in *.
  rewrite Forall_forall in Hc.
  split.
  - induction Ha as [|ch l Hch _ IH]; constructor; [apply (Hc ch Hch) | exact IH].
  - f_equal. induction Ha as [|ch l Hch _ IH]; [reflexivity|].
    cbn [map]. f_equal; [apply (Hc ch Hch) | exact IH].
Qed.

(** The claim C5 as stated (prefix [ISCC:] and upper-case base32) fails on
    the sample Meta-Code, whose URI is all lower case. *)
Lemma C5_uri_uppercase_counterexample :
  uri Samples.meta_code = "iscc:aaawklhfxnsf7nne"%string
  /\ ("ISCC:" ++ encode_base32 (Code_bytes Samples.meta_code))%string
     = "ISCC:AAAWKLHFXNSF7NNE"%string
  /\ uri Samples.meta_code
     <> ("ISCC:" ++ encode_base32 (Code_bytes Samples.meta_code))%string.
Proof.
  assert (E1 : uri Samples.meta_code = "iscc:aaawklhfxnsf7nne"%string)
    by (vm_compute; reflexivity).
  assert (E2 : ("ISCC:" ++ encode_base32 (Code_bytes Samples.meta_code))%string
               = "ISCC:AAAWKLHFXNSF7NNE"%string)
    by (vm_compute; reflexivity).
  split; [exact E1|]. split; [exact E2|].
  rewrite E1, E2. discriminate.
Qed.

(** *** Hamming distance *)

Lemma lxor_double (a b : Z) (x y : bool) :
  Z.lxor (2 * a + Z.b2z x) (2 * b + Z.b2z y) = 2 * Z.lxor a b + Z.b2z (xorb x y).
Proof.
  apply Z.bits_inj'. intros n Hn.
  rewrite Z.lxor_spec.
  destruct (Z.eq_dec n 0) as [->|Hne].
  - now rewrite !Z.testbit_0_r.
  - replace n with (Z.succ (n - 1)) by lia.
    rewrite !Z.testbit_succ_r by lia. now rewrite Z.lxor_spec.
Qed.

Lemma popcount_double (n : Z) (x : bool) :
  0 <= n -> popcount (2 * n + Z.b2z x) = popcount n + Z.b2z x.
Proof.
  intros Hn. destruct n as [|p|p]; [now destruct x | | lia].
  destruct x.
  - change (2 * Z.pos p + Z.b2z true) with (Z.pos p~1). cbn [popcount popcount_pos Z.b2z]. lia.
  - change (2 * Z.pos p + Z.b2z false) with (Z.pos p~0). cbn [popcount popcount_pos Z.b2z]. lia.
Qed.

Lemma popcount_lxor_fold (a b : bitarray) :
  List.length a = List.length b ->
  forall acc1 acc2 : Z,
    0 <= acc1 -> 0 <= acc2 ->
    popcount (Z.lxor
                (fold_left (fun acc (x : bool) => 2 * acc + (if x then 1 else 0)) a acc1)
                (fold_left (fun acc (x : bool) => 2 * acc + (if x then 1 else 0)) b acc2))
    = popcount (Z.lxor acc1 acc2) + count_diff a b.
Proof.
  revert b. induction a as [|x a IH]; intros [|y b] Hl acc1 acc2 H1 H2;
    try discriminate.
  - cbn. lia.
  - cbn [fold_left count_diff]. injection Hl as Hl.
    rewrite (IH b Hl) by (destruct x, y; lia).
    change (if x then 1 else 0) with (Z.b2z x).
    change (if y then 1 else 0) with (Z.b2z y).
    rewrite lxor_double, popcount_double.
    + change (if xorb x y then 1 else 0) with (Z.b2z (xorb x y)). lia.
    + apply Z.lxor_nonneg. tauto.
Qed.

(** The number of differing positions is the number of one bits of the
    XOR of the two bodies read as unsigned integers. *)
Lemma count_diff_popcount (a b : bitarray) :
  List.length a = List.length b ->
  count_diff a b = popcount (Z.lxor (Z_of_bits a) (Z_of_bits b)).
Proof.
  intros Hl. unfold Z_of_bits.
  rewrite (popcount_lxor_fold a b Hl 0 0) by lia. reflexivity.
Qed.

(** C4, as the code has it.  For every pair of [Code] objects the XOR
    operator returns the Hamming distance -- the number of one bits of the
    XOR of the two bodies, read as unsigned integers -- whenever the two
    bodies have the same number of bits, whatever the two headers are;
    when the bodies differ in length it raises [ValueError]. *)
Theorem C4_xor_hamming_distance (a b : Code) :
  Code_xor a b =
  if Nat.eqb (List.length (_body a)) (List.length (_body b))
  then Ok (popcount (Z.lxor (Z_of_bits (_body a)) (Z_of_bits (_body b))))
  else Raise ValueError.
Proof.
  unfold Code_xor, count_xor.
  destruct (Nat.eqb_spec (List.length (_body a)) (List.length (_body b))) as [Hl|_];
    [|reflexivity].
  now rewrite count_diff_popcount.
Qed.

(** The claim C4 as stated says the distance is defined only between codes
    whose headers agree; the operator is defined between a Meta-Code and a
    Data-Code. *)
Lemma C4_xor_defined_across_headers_counterexample :
  Code_xor Samples.meta_code Samples.data_code = Ok 2
  /\ maintype Samples.meta_code <> maintype Samples.data_code.
Proof. split; [vm_compute; reflexivity | discriminate]. Qed.

End ModelsFacts.

(** ** UTF-8 and [trim_text] *)

Module TextFacts.
Import Text CodeMeta.
Import ZifyBool.

Lemma utf8_char_range (c : Z) :
  is_scalar c = true -> Forall (fun b => 0 <= b < 256) (utf8_char c).
Proof.
  intros Hc. unfold is_scalar, is_surrogate in Hc. unfold utf8_char.
  destruct (Z.ltb_spec c 0x80); [|destruct (Z.ltb_spec c 0x800);
    [|destruct (Z.ltb_spec c 0x10000)]]; repeat constructor; zlia.
Qed.

Lemma Z_of_byte_of_Z (z : Z) : 0 <= z < 256 -> Z_of_byte (byte_of_Z z) = z.
Proof.
  intros Hz. unfold Z_of_byte, byte_of_Z.
  destruct (Byte.of_N (Z.to_N z)) as [b|] eqn:E.
  - apply Byte.to_of_N in E. rewrite E. lia.
  - apply Byte.of_N_None_iff in E. lia.
Qed.

Lemma encode_utf8_scalar (s : ustr) :
  encodable s ->
  encode_utf8 s = Ok (map byte_of_Z (utf8_bytes s))
  /\ map Z_of_byte (map byte_of_Z (utf8_bytes s)) = utf8_bytes s.
Proof.
  induction 1 as [|c s Hc _ [IH1 IH2]]; [split; reflexivity|].
  cbn [encode_utf8]. rewrite Hc, IH1. cbn [bind].
  unfold utf8_bytes in *. cbn [flat_map]. rewrite !map_app, IH2.
  split; [reflexivity|]. f_equal.
  pose proof (utf8_char_range c Hc) as Hr.
  induction Hr as [|b l Hb _ IHl]; [reflexivity|].
  cbn [map]. now rewrite Z_of_byte_of_Z, IHl.
Qed.

(** A well-formed sequence decodes to its code point. *)
Lemma decode_char (c : Z) (rest : list Z) :
  is_scalar c = true ->
  decode_ignore (utf8_char c ++ rest) = c :: decode_ignore rest.
Proof.
  intros Hc. unfold is_scalar, is_surrogate in Hc. unfold utf8_char.
  destruct (Z.ltb_spec c 0x80); [|destruct (Z.ltb_spec c 0x800);
    [|destruct (Z.ltb_spec c 0x10000)]];
    cbn [app decode_ignore]; unfold second_ok, is_cont;
    repeat resolve_if; finish.
Qed.

(** A sequence cut short by the end of the data decodes to nothing. *)
Lemma decode_truncated (c : Z) (n : nat) :
  is_scalar c = true ->
  (n < List.length (utf8_char c))%nat ->
  decode_ignore (firstn n (utf8_char c)) = [].
Proof.
  intros Hc. unfold is_scalar, is_surrogate in Hc. unfold utf8_char.
  destruct (Z.ltb_spec c 0x80); [|destruct (Z.ltb_spec c 0x800);
    [|destruct (Z.ltb_spec c 0x10000)]];
    cbn [List.length]; intros Hn;
    do 4 (destruct n as [|n]; [cbn [firstn decode_ignore]; unfold second_ok, is_cont;
                               repeat resolve_if; finish|]);
    lia.
Qed.

(** Decoding a cut encoding gives the characters that fit entirely. *)
Lemma decode_prefix (s : ustr) :
  encodable s ->
  forall n : nat,
  exists k : nat,
    decode_ignore (firstn n (utf8_bytes s)) = firstn k s
    /\ (List.length (utf8_bytes (firstn k s)) <= n)%nat.
Proof.
  induction 1 as [|c s Hc _ IH]; intros n.
  - exists 0%nat. rewrite firstn_nil. split; [reflexivity | cbn; lia].
  - unfold utf8_bytes in *. cbn [flat_map]. rewrite firstn_app.
    destruct (Nat.lt_ge_cases n (List.length (utf8_char c))) as [Hlt|Hge].
    + exists 0%nat. replace (n - List.length (utf8_char c))%nat with 0%nat by lia.
      rewrite firstn_O, app_nil_r, decode_truncated by assumption.
      split; [reflexivity | cbn; lia].
    + rewrite firstn_all2 by assumption. rewrite decode_char by assumption.
      destruct (IH (n - List.length (utf8_char c))%nat) as (k & Hk & Hl).
      exists (S k). cbn [firstn flat_map]. rewrite Hk, length_app.
      split; [reflexivity | lia].
Qed.

(** [strip] keeps a contiguous part of the text. *)
Lemma lstrip_suffix (s : ustr) : exists pre, s = (pre ++ lstrip s)%list.
Proof.
  induction s as [|c s [pre IH]]; [now exists []|].
  cbn [lstrip]. destruct (py_isspace c).
  - exists (c :: pre). cbn [app]. now rewrite <- IH.
  - now exists [].
Qed.

Lemma strip_infix (s : ustr) : exists pre post, s = (pre ++ strip s ++ post)%list.
Proof.
  destruct (lstrip_suffix s) as [pre Hpre].
  destruct (lstrip_suffix (rev (lstrip s))) as [q Hq].
  exists pre, (rev q). unfold strip.
  rewrite <- rev_app_distr, <- Hq, rev_involutive. exact Hpre.
Qed.

Lemma utf8_bytes_app (a b : ustr) :
  utf8_bytes (a ++ b) = (utf8_bytes a ++ utf8_bytes b)%list.
Proof. apply flat_map_app. Qed.

(** C10, as the code has it.  For every string [text] that has no lone
    surrogate (and so can be encoded as UTF-8) and every non-negative byte
    budget [n], [trim_text text n] returns a string -- also when the cut
    falls inside a multi-byte sequence -- and the UTF-8 encoding of that
    string is at most [n] bytes long. *)
Theorem C10_trim_text_within_budget (text : ustr) (n : Z) :
  encodable text ->
  0 <= n ->
  exists (r : ustr) (data : bytes),
    trim_text text n = Ok r
    /\ encode_utf8 r = Ok data
    /\ Z.of_nat (List.length data) <= n.
Proof.
  intros Hs Hn. unfold trim_text.
  destruct (encode_utf8_scalar text Hs) as [Henc Hback].
  rewrite Henc. cbn [bind]. unfold slice_to, decode_utf8_ignore.
  destruct (Z.ltb_spec n 0) as [|_]; [lia|].
  rewrite <- firstn_map, Hback.
  destruct (decode_prefix text Hs (Z.to_nat n)) as (k & Hk & Hl).
  rewrite Hk.
  destruct (strip_infix (firstn k text)) as (pre & post & Hsplit).
  assert (Hr : Forall (fun c => is_scalar c = true) (strip (firstn k text))).
  { assert (Hf : Forall (fun c => is_scalar c = true) (firstn k text)).
    { pose proof Hs as Hs'. rewrite <- (firstn_skipn k text) in Hs'.
      apply Forall_app in Hs'. tauto. }
    rewrite Hsplit in Hf. apply Forall_app in Hf. destruct Hf as [_ Hf].
    apply Forall_app in Hf. tauto. }
  destruct (encode_utf8_scalar _ Hr) as [Henc' _].
  exists (strip (firstn k text)), (map byte_of_Z (utf8_bytes (strip (firstn k text)))).
  split; [reflexivity|]. split; [exact Henc'|].
  rewrite length_map. rewrite Hsplit in Hl.
  rewrite !utf8_bytes_app, !length_app in Hl. lia.
Qed.

Lemma C10_trim_text_within_budget_witness :
  exists (r : ustr) (data : bytes),
    trim_text [0x48; 0xE9; 0x20AC; 0x20; 0x1F4A9] 8 = Ok r
    /\ encode_utf8 r = Ok data
    /\ Z.of_nat (List.length data) <= 8.
Proof.
  apply (C10_trim_text_within_budget [0x48; 0xE9; 0x20AC; 0x20; 0x1F4A9] 8).
  - repeat constructor.
  - lia.
Defined.

(** The claim C10 as stated covers every string; a string that holds a
    lone surrogate cannot be encoded, and [trim_text] fails on it. *)
Lemma C10_trim_text_surrogate_counterexample :
  trim_text [0x48; 0xD800] 10 = Raise UnicodeEncodeError.
Proof. reflexivity. Qed.

End TextFacts.

(** ** Meta-Code *)

Module CodeMetaFacts.
Import Codec Text CodeMeta.

Lemma tobytes_length (k : nat) (ba : bitarray) :
  List.length ba = (8 * k)%nat -> List.length (tobytes ba) = k.
Proof.
  revert ba. induction k as [|k IH]; intros ba Hl.
  - destruct ba; [reflexivity | discriminate].
  - do 8 (destruct ba as [|? ba]; [cbn [List.length] in Hl; lia|]).
    cbn [tobytes List.length]. f_equal. apply IH. cbn [List.length] in Hl. lia.
Qed.

(** The similarity hash is as long as the first digest. *)
Lemma similarity_hash_length (d : bytes) (ds : list bytes) :
  List.length (similarity_hash (d :: ds)) = List.length d.
Proof.
  unfold similarity_hash. apply tobytes_length.
  now rewrite length_map, length_seq.
Qed.

Lemma sliding_window_cons {A} (s : list A) (width : nat) :
  exists w ws, sliding_window s width = w :: ws.
Proof.
  unfold sliding_window.
  destruct (Nat.max (List.length s - width + 1) 1) as [|m] eqn:E; [lia|].
  cbn [List.seq map]. eauto.
Qed.

Lemma sliding_window_In {A} (P : A -> Prop) (s : list A) (width : nat) :
  Forall P s -> Forall (Forall P) (sliding_window s width).
Proof.
  intros Hs. unfold sliding_window. apply Forall_forall. intros w Hw.
  apply in_map_iff in Hw. destruct Hw as (i & <- & _).
  assert (Hsk : Forall P (skipn i s)).
  { rewrite <- (firstn_skipn i s) in Hs. apply Forall_app in Hs. tauto. }
  rewrite <- (firstn_skipn width (skipn i s)) in Hsk.
  apply Forall_app in Hsk. tauto.
Qed.

Lemma mapM_cons_inv {A B} (f : A -> result B) (a : A) (l : list A) (r : list B) :
  mapM f (a :: l) = Ok r -> exists b bs, r = b :: bs /\ f a = Ok b.
Proof.
  cbn [mapM]. destruct (f a) as [b|]; [|discriminate]. cbn [bind].
  destruct (mapM f l) as [bs|]; [|discriminate]. cbn [bind].
  intros E. injection E as <-. eauto.
Qed.

Section WithExternal.
Context `{Ext : External}.

(** The hash produces 32-byte digests. *)
Hypothesis blake3_length : forall data : bytes, List.length (blake3 data) = 32%nat.

Lemma text_digests_simhash_length (grams : list ustr) (ds : list bytes) :
  grams <> [] -> text_digests grams = Ok ds ->
  List.length (similarity_hash ds) = 32%nat.
Proof.
  intros Hne Hd. destruct grams as [|g grams]; [contradiction|].
  unfold text_digests in Hd.
  apply mapM_cons_inv in Hd. destruct Hd as (b & bs & -> & Hb).
  rewrite similarity_hash_length.
  destruct (encode_utf8 g) as [data|]; [|discriminate].
  cbn [bind] in Hb. injection Hb as <-. apply blake3_length.
Qed.

Lemma title_simhash_length (title : ustr) (ht : bytes) :
  title_simhash title = Ok ht -> List.length ht = 32%nat.
Proof.
  unfold title_simhash. intros E.
  destruct (text_digests _) as [ds|] eqn:Hd; [|discriminate].
  cbn [bind] in E. injection E as <-.
  refine (text_digests_simhash_length _ _ _ Hd).
  destruct (sliding_window_cons (str_lower title) meta_ngram_size_title)
    as (w & ws & ->). discriminate.
Qed.

Lemma extra_simhash_length (extra : pyval) (he : bytes) :
  extra_simhash extra = Ok he -> List.length he = 32%nat.
Proof.
  destruct extra as [|s|b|h]; cbn [extra_simhash]; intros E; try discriminate.
  - destruct (text_digests _) as [ds|] eqn:Hd; [|discriminate].
    cbn [bind] in E. injection E as <-.
    refine (text_digests_simhash_length _ _ _ Hd).
    destruct (sliding_window_cons (str_lower s) meta_ngram_size_extra_text)
      as (w & ws & ->). discriminate.
  - injection E as <-.
    destruct (sliding_window_cons b meta_ngram_size_extra_binary) as (w & ws & ->).
    cbn [map]. rewrite similarity_hash_length. apply blake3_length.
Qed.

End WithExternal.

(** What [sliced] and [interleave] make of two 32-byte hashes. *)
Lemma interleave_sliced (t e : bytes) :
  List.length t = 32%nat -> List.length e = 32%nat ->
  List.concat (interleave (sliced (firstn 16 t) 4) (sliced (firstn 16 e) 4))
  = interleave_chunks t e
  /\ List.length (interleave_chunks t e) = 32%nat.
Proof.
  intros Ht He.
  do 16 (destruct t as [|? t]; [discriminate|]).
  do 16 (destruct e as [|? e]; [discriminate|]).
  split; reflexivity.
Qed.

(** The digests of n-grams that can be encoded: the hash of the UTF-8
    bytes of each. *)
Lemma text_digests_encodable `{Ext : External} (grams : list ustr) :
  Forall encodable grams ->
  text_digests grams
  = Ok (map (fun w => blake3 (map byte_of_Z (utf8_bytes w))) grams).
Proof.
  induction 1 as [|g grams Hg _ IH]; [reflexivity|].
  unfold text_digests in *. cbn [mapM map].
  destruct (TextFacts.encode_utf8_scalar g Hg) as [-> _]. cbn [bind].
  rewrite IH. reflexivity.
Qed.

(** [str.lower] on the letters A to Z keeps a text encodable. *)
Lemma ascii_str_lower_encodable (s : ustr) :
  encodable s -> encodable (Samples.ascii_str_lower s).
Proof.
  unfold encodable, Samples.ascii_str_lower. intros Hs.
  apply Forall_map. revert Hs. apply Forall_impl. intros c Hc.
  destruct ((65 <=? c) && (c <=? 90)) eqn:E; [|exact Hc].
  apply andb_prop in E. destruct E as [E1 E2].
  apply Z.leb_le in E1. apply Z.leb_le in E2.
  unfold is_scalar, is_surrogate.
  repeat match goal with
         | |- context [?x <=? ?y] => destruct (Z.leb_spec x y); try lia
         end; reflexivity.
Qed.

(** C2, as the code has it.  For every title and every description of
    type str, bytes or None that contain no lone surrogate (and a
    [str.lower] that keeps such texts encodable), [soft_hash_meta_v0]
    returns.  The title SimHash [ht] is the similarity hash of the hashes
    of the UTF-8 bytes of the windows ([meta_ngram_size_title] characters
    wide) of the lower-cased title, and has 32 bytes.  For description [None], the empty string or
    the empty bytes the result is [ht] unchanged.  For a non-empty
    description the extra SimHash [he] is the similarity hash of the
    hashes of the windows of a bytes description, or of the UTF-8 bytes
    of the windows of a lower-cased text description, of the widths the
    options give for them;
    the result is the 32-byte digest that takes, in turn, four bytes of
    the first 16 bytes of [ht] and four bytes of the first 16 bytes of
    [he], a title chunk first.  (The hash function is any function that
    produces 32-byte digests.) *)
Theorem C2_soft_hash_meta_v0_interleaves `{Ext : External}
    (blake3_length : forall data : bytes, List.length (blake3 data) = 32%nat)
    (lower_encodable : forall s : ustr, encodable s -> encodable (str_lower s))
    (title : ustr) (extra : pyval) :
  encodable title ->
  match extra with
  | PStr s => encodable s
  | POther _ => False
  | PNone | PBytes _ => True
  end ->
  let gram_digest := fun w : ustr => blake3 (map byte_of_Z (utf8_bytes w)) in
  let ht :=
    similarity_hash
      (map gram_digest (sliding_window (str_lower title) meta_ngram_size_title)) in
  List.length ht = 32%nat
  /\ match extra with
     | PNone | PStr [] | PBytes [] => soft_hash_meta_v0 title extra = Ok ht
     | PStr s =>
         let he :=
           similarity_hash
             (map gram_digest
                  (sliding_window (str_lower s) meta_ngram_size_extra_text)) in
         List.length he = 32%nat
         /\ soft_hash_meta_v0 title extra = Ok (interleave_chunks ht he)
         /\ List.length (interleave_chunks ht he) = 32%nat
     | PBytes b =>
         let he :=
           similarity_hash
             (map blake3 (sliding_window b meta_ngram_size_extra_binary)) in
         List.length he = 32%nat
         /\ soft_hash_meta_v0 title extra = Ok (interleave_chunks ht he)
         /\ List.length (interleave_chunks ht he) = 32%nat
     | POther _ => True
     end.
Proof.
  intros Htitle Hextra gram_digest ht.
  assert (Ht : title_simhash title = Ok ht).
  { unfold title_simhash. cbv zeta.
    rewrite (text_digests_encodable _
               (sliding_window_In _ _ _ (lower_encodable title Htitle))).
    reflexivity. }
  pose proof (title_simhash_length blake3_length title ht Ht) as Hlt.
  split; [exact Hlt|].
  assert (Hsoft : forall e b,
             is_empty_extra e = Ok b ->
             soft_hash_meta_v0 title e
             = if b then Ok ht
               else he <- extra_simhash e ;;
                    Ok (List.concat (interleave (sliced (firstn 16 ht) 4)
                                                (sliced (firstn 16 he) 4)))).
  { intros e b Hb. unfold soft_hash_meta_v0. rewrite Ht, Hb. reflexivity. }
  destruct extra as [|[|c s]|[|b bs]|h]; cbv beta iota zeta; try exact I;
    match goal with
    | |- context [soft_hash_meta_v0 title ?e] => rewrite (Hsoft e _ eq_refl)
    end; try reflexivity.
  - set (he := similarity_hash (map gram_digest _)).
    assert (He : extra_simhash (PStr (c :: s)) = Ok he).
    { cbn [extra_simhash]. cbv zeta.
      rewrite (text_digests_encodable _
                 (sliding_window_In _ _ _ (lower_encodable (c :: s) Hextra))).
      reflexivity. }
    pose proof (extra_simhash_length blake3_length _ he He) as Hle.
    destruct (interleave_sliced ht he Hlt Hle) as [Hi Hl].
    split; [exact Hle|]. split; [|exact Hl].
    rewrite He. unfold bind. now rewrite Hi.
  - set (he := similarity_hash (map blake3 _)).
    assert (He : extra_simhash (PBytes (b :: bs)) = Ok he) by reflexivity.
    pose proof (extra_simhash_length blake3_length _ he He) as Hle.
    destruct (interleave_sliced ht he Hlt Hle) as [Hi Hl].
    split; [exact Hle|]. split; [|exact Hl].
    rewrite He. unfold bind. now rewrite Hi.
Qed.

Lemma C2_soft_hash_meta_v0_interleaves_witness :
  exists ht he : bytes,
    ht = similarity_hash
           (map (fun w => @blake3 Samples.sample_external (map byte_of_Z (utf8_bytes w)))
                (sliding_window (Samples.ascii_str_lower Samples.hello) 3))
    /\ he = similarity_hash
              (map (fun w => @blake3 Samples.sample_external (map byte_of_Z (utf8_bytes w)))
                   (sliding_window (Samples.ascii_str_lower Samples.world) 3))
    /\ soft_hash_meta_v0 (Ext := Samples.sample_external)
         Samples.hello (PStr Samples.world) = Ok (interleave_chunks ht he)
    /\ List.length (interleave_chunks ht he) = 32%nat.
Proof.
  destruct (C2_soft_hash_meta_v0_interleaves (Ext := Samples.sample_external)
              (fun data => eq_refl) ascii_str_lower_encodable
              Samples.hello (PStr Samples.world))
    as (_ & _ & Hd & Hl).
  - repeat constructor.
  - repeat constructor.
  - eexists. eexists. split; [reflexivity|]. split; [reflexivity|].
    split; [exact Hd | exact Hl].
Defined.

(** The claim C2 as stated promises a digest for every name string; a
    name with a lone surrogate, as Python strings can hold, cannot be
    encoded as UTF-8 and the function raises [UnicodeEncodeError]. *)
Lemma C2_soft_hash_meta_v0_surrogate_counterexample :
  soft_hash_meta_v0 (Ext := Samples.sample_external)
    [0x48; 0xD800] (PStr Samples.world) = Raise UnicodeEncodeError.
Proof. vm_compute. reflexivity. Qed.

End CodeMetaFacts.

(** ** The Meta-Code generator *)

Module GenMetaFacts.
Import Codec Text CodeMeta.




Section WithExternal.
Context `{Ext : External}.

(** What the generator hashes for the [metahash]: the UTF-8 bytes of the
    description text, the description bytes as they are -- also when they
    are empty --, and the UTF-8 bytes of the normalised name when the
    description is [None] or the empty string. *)
Lemma gen_meta_code_v0_metahash (name : option ustr) (description : pyval)
    (bits : Z) (r : ISCC) :
  gen_meta_code_v0 name description bits = Ok r ->
  exists (name' : ustr) (payload : bytes),
    trim_text (collapse_text (match name with None => [] | Some n => n end))
              meta_trim_title = Ok name'
    /\ payload_of name' description payload
    /\ metahash r = hex (blake3 payload).
Proof.
  unfold gen_meta_code_v0. intros E.
  destruct (trim_text _ meta_trim_title) as [name'|] eqn:Hn; [|discriminate].
  unfold bind at 1 in E. exists name'.
  destruct description as [|[|c s]|b|h]; unfold payload_of.
  - destruct (encode_utf8 name') as [payload|]; [|discriminate].
    unfold bind at 1 2 in E. exists payload.
    destruct (soft_hash_meta_v0 name' PNone); [|discriminate]. unfold bind at 1 in E.
    destruct (encode_component _ _ _ bits _); [|discriminate]. unfold bind in E.
    injection E as <-. auto.
  - destruct (encode_utf8 name') as [payload|]; [|discriminate].
    unfold bind at 1 2 in E. exists payload.
    destruct (soft_hash_meta_v0 name' PNone); [|discriminate]. unfold bind at 1 in E.
    destruct (encode_component _ _ _ bits _); [|discriminate]. unfold bind in E.
    injection E as <-. auto.
  - destruct (encode_utf8 (c :: s)) as [payload|]; [|discriminate].
    unfold bind at 1 2 in E. exists payload.
    destruct (trim_text _ meta_trim_extra) as [d|]; [|discriminate].
    unfold bind at 1 2 in E.
    destruct (soft_hash_meta_v0 name' (PStr d)); [|discriminate]. unfold bind at 1 in E.
    destruct (encode_component _ _ _ bits _); [|discriminate]. unfold bind in E.
    injection E as <-. auto.
  - unfold bind at 1 in E. exists b.
    destruct (soft_hash_meta_v0 name' _); [|discriminate]. unfold bind at 1 in E.
    destruct (encode_component _ _ _ bits _); [|discriminate]. unfold bind in E.
    injection E as <-. auto.
  - discriminate.
Qed.

(** C3 at the failing input.  With the empty bytes object as description,
    the [metahash] the generator returns is the hash of the empty byte
    string, whatever the name is -- not the hash of the name. *)
Theorem C3_metahash_of_empty_bytes (name : option ustr) (bits : Z) (r : ISCC) :
  gen_meta_code_v0 name (PBytes []) bits = Ok r ->
  metahash r = hex (blake3 []).
Proof.
  intros E. apply gen_meta_code_v0_metahash in E.
  destruct E as (name' & payload & _ & Hp & Hm).
  unfold payload_of in Hp. now subst payload.
Qed.



End WithExternal.

Lemma C3_metahash_of_empty_bytes_witness :
  metahash Samples.empty_bytes_result
  = hex (@blake3 Samples.sample_external []).
Proof.
  apply (C3_metahash_of_empty_bytes (Ext := Samples.sample_external)
           (Some Samples.world) 64).
  vm_compute. reflexivity.
Defined.

(** The test vector of the package ([tests/test_schema.py]): for name
    [Hello] and description [World] the code is [AAAWKLHFXNSF7NNE] and
    the [metahash] is the BLAKE3 hash of the description; it is also the
    hash of the name [World], which the claim C3 expects for the empty
    bytes description above. *)
Example metahash_test_vector :
  exists r : ISCC,
    gen_meta_code_v0 (Ext := Samples.sample_external)
      (Some Samples.hello) (PStr Samples.world) 64 = Ok r
    /\ iscc r = "ISCC:AAAWKLHFXNSF7NNE"%string
    /\ metahash r
       = "bf73d18575a736e4037d45f9e316085b86c19be6363de6aa789e13deaacc1c4e"%string
    /\ exists r' : ISCC,
        gen_meta_code_v0 (Ext := Samples.sample_external)
          (Some Samples.world) PNone 64 = Ok r'
        /\ metahash r' = metahash r.
Proof.
  eexists. split; [vm_compute; reflexivity|]. split; [reflexivity|].
  split; [reflexivity|].
  eexists. split; [vm_compute; reflexivity|]. reflexivity.
Qed.

End GenMetaFacts.

(** ** Content-Code Video *)

Module CodeContentVideoFacts.
Import Codec Text CodeMeta CodeContentVideo.

Lemma sum_acc (col : list Z) (a : Z) :
  fold_left Z.add col a = a + fold_left Z.add col 0.
Proof.
  revert a. induction col as [|x col IH]; intros a; cbn [fold_left]; [lia|].
  rewrite (IH (a + x)), (IH (0 + x)). lia.
Qed.

Lemma sum_cons (x : Z) (col : list Z) : sum (x :: col) = x + sum col.
Proof. unfold sum. cbn [fold_left]. rewrite sum_acc. lia. Qed.

Lemma sum_Permutation (c1 c2 : list Z) : Permutation c1 c2 -> sum c1 = sum c2.
Proof.
  induction 1 as [|x l l' _ IH|x y l|l l' l'' _ IH1 _ IH2].
  - reflexivity.
  - rewrite !sum_cons. lia.
  - rewrite !sum_cons. lia.
  - congruence.
Qed.

Lemma fold_min_swap (a b : nat) (rows : list FrameSig) :
  Nat.min a (fold_right (fun x acc => Nat.min (List.length x) acc) b rows)
  = Nat.min b (fold_right (fun x acc => Nat.min (List.length x) acc) a rows).
Proof. induction rows as [|r rows IH]; cbn [fold_right]; lia. Qed.

Lemma fold_min_Permutation (a : nat) (r1 r2 : list FrameSig) :
  Permutation r1 r2 ->
  fold_right (fun x acc => Nat.min (List.length x) acc) a r1
  = fold_right (fun x acc => Nat.min (List.length x) acc) a r2.
Proof.
  induction 1 as [|x l l' _ IH|x y l|l l' l'' _ IH1 _ IH2]; cbn [fold_right];
    [reflexivity | lia | lia | congruence].
Qed.

Lemma min_length_Permutation (r1 r2 : list FrameSig) :
  Permutation r1 r2 -> min_length r1 = min_length r2.
Proof.
  induction 1 as [|x l l' Hp IH|x y l|l l' l'' _ IH1 _ IH2].
  - reflexivity.
  - cbn [min_length]. now apply fold_min_Permutation.
  - cbn [min_length fold_right]. apply fold_min_swap.
  - congruence.
Qed.

(** The column sums do not depend on the order of the rows: whatever order
    Python iterates over the set in, the vector is the same. *)
Lemma vecsum_Permutation (s1 s2 : list FrameSig) :
  Permutation s1 s2 -> vecsum s1 = vecsum s2.
Proof.
  intros Hp. unfold vecsum, zip_star. rewrite !map_map.
  rewrite (min_length_Permutation s1 s2 Hp).
  apply map_ext. intros j. apply sum_Permutation. now apply Permutation_map.
Qed.

Lemma py_set_Permutation (l1 l2 : list FrameSig) :
  (forall x, In x l1 <-> In x l2) -> Permutation (py_set l1) (py_set l2).
Proof.
  intros Hin. unfold py_set.
  apply NoDup_Permutation; try apply NoDup_nodup.
  intros x. rewrite !nodup_In. apply Hin.
Qed.

(** [sum] adds the entries up. *)
Lemma sum_fold_right (col : list Z) : sum col = fold_right Z.add 0 col.
Proof.
  induction col as [|x col IH]; [reflexivity|].
  rewrite sum_cons, IH. reflexivity.
Qed.

(** Rows of one and the same arity [m] have [m] columns. *)
Lemma min_length_uniform (m : nat) (rows : list FrameSig) :
  rows <> [] -> (forall x, In x rows -> List.length x = m) -> min_length rows = m.
Proof.
  destruct rows as [|r rows]; [contradiction|]. intros _ Hlen.
  cbn [min_length]. rewrite (Hlen r (or_introl eq_refl)).
  assert (Hrows : forall x, In x rows -> List.length x = m).
  { intros x Hx. apply Hlen. now right. }
  clear Hlen. induction rows as [|x rows IH]; cbn [fold_right]; [reflexivity|].
  rewrite (Hrows x (or_introl eq_refl)), IH; [apply Nat.min_id|].
  intros y Hy. apply Hrows. now right.
Qed.

(** The column sums of rows of arity [m], written out: entry [j] is the
    sum of the [j]-th entries of the rows. *)
Lemma vecsum_columns (m : nat) (rows : list FrameSig) :
  rows <> [] -> (forall x, In x rows -> List.length x = m) ->
  vecsum rows
  = map (fun j => fold_right Z.add 0 (map (fun x => nth j x 0) rows)) (seq 0 m).
Proof.
  intros Hne Hlen. unfold vecsum, zip_star.
  rewrite (min_length_uniform m rows Hne Hlen), map_map.
  apply map_ext. intros j. apply sum_fold_right.
Qed.

Section WithExternal.
Context `{Ext : External}.

(** C6.  [gen_video_code_v0] treats the frame signatures as a set: two
    sequences with the same set of distinct tuples (whatever the order and
    the multiplicities) give the same result.  The digest is the WTA-hash
    of the column-wise sums of the distinct tuples, in whatever order the
    set is iterated over: for tuples of one arity [m] and any
    duplicate-free enumeration [s] of the distinct tuples, it is the
    WTA-hash of the vector whose entry [j], for [j] in [[0, m)], is the
    sum of the [j]-th entries of the tuples of [s].  (For no tuple at all
    the vector is empty.) *)
Theorem C6_video_code_set_semantics (l1 l2 : list FrameSig) (bits : Z) :
  (forall x, In x l1 <-> In x l2) ->
  gen_video_code_v0 l1 bits = gen_video_code_v0 l2 bits
  /\ hash_video_v0 l1 = hash_video_v0 l2
  /\ NoDup (py_set l1)
  /\ (forall x, In x (py_set l1) <-> In x l1)
  /\ (forall s, Permutation s (py_set l1) -> wtahash (vecsum s) = hash_video_v0 l1)
  /\ (forall (m : nat) (s : list FrameSig),
         l1 <> [] ->
         (forall x, In x l1 -> List.length x = m) ->
         NoDup s -> (forall x, In x s <-> In x l1) ->
         hash_video_v0 l1
         = wtahash (map (fun j => fold_right Z.add 0 (map (fun x => nth j x 0) s))
                        (seq 0 m)))
  /\ (l1 = [] -> hash_video_v0 l1 = wtahash []).
Proof.
  intros Hin.
  assert (Hh : hash_video_v0 l1 = hash_video_v0 l2).
  { unfold hash_video_v0. cbv zeta.
    now rewrite (vecsum_Permutation _ _ (py_set_Permutation l1 l2 Hin)). }
  split; [unfold gen_video_code_v0; now rewrite Hh|].
  split; [exact Hh|].
  split; [apply NoDup_nodup|].
  split; [intros x; apply nodup_In|].
  split.
  { intros s Hs. unfold hash_video_v0. cbv zeta.
    now rewrite (vecsum_Permutation _ _ Hs). }
  split; [|intros ->; reflexivity].
  intros m s Hne Hlen Hnd Hs.
  assert (Hp : Permutation (py_set l1) s).
  { apply NoDup_Permutation; [apply NoDup_nodup | exact Hnd |].
    intros x. unfold py_set. rewrite nodup_In. symmetry. apply Hs. }
  unfold hash_video_v0. cbv zeta. rewrite (vecsum_Permutation _ _ Hp).
  rewrite (vecsum_columns m s); [reflexivity | | ].
  - destruct l1 as [|x l1']; [contradiction|].
    intros ->. apply (proj2 (Hs x)). now left.
  - intros x Hx. apply Hlen. now apply Hs.
Qed.



End WithExternal.

Lemma C6_video_code_set_semantics_witness :
  gen_video_code_v0 (Ext := Samples.plain_external)
    [[1; 2; 3]; [4; 5; 6]; [1; 2; 3]] 64
  = gen_video_code_v0 (Ext := Samples.plain_external) [[4; 5; 6]; [1; 2; 3]] 64
  /\ hash_video_v0 (Ext := Samples.plain_external) [[1; 2; 3]; [4; 5; 6]; [1; 2; 3]]
     = @wtahash Samples.plain_external [5; 7; 9].
Proof.
  destruct (C6_video_code_set_semantics (Ext := Samples.plain_external)
              [[1; 2; 3]; [4; 5; 6]; [1; 2; 3]] [[4; 5; 6]; [1; 2; 3]] 64)
    as (Hgen & _ & _ & _ & _ & Hcols & _).
  - intros x. simpl. tauto.
  - split; [exact Hgen|].
    apply (Hcols 3%nat [[4; 5; 6]; [1; 2; 3]]).
    + discriminate.
    + intros x [<-|[<-|[<-|[]]]]; reflexivity.
    + repeat constructor; simpl; intuition discriminate.
    + intros x. simpl. tauto.
Defined.



End CodeContentVideoFacts.

(** ** Discrete cosine transform *)

Module DCTFacts.
Import DCT.

Lemma is_pow2_1 : is_pow2 1.
Proof. now exists 0%nat. Qed.

Lemma not_is_pow2_0 : ~ is_pow2 0.
Proof.
  intros [k Hk]. pose proof (Nat.pow_nonzero 2 k ltac:(lia)). lia.
Qed.

Lemma is_pow2_even (n : nat) :
  (2 <= n)%nat -> is_pow2 n -> Nat.modulo n 2 = 0%nat.
Proof.
  intros Hn [k ->]. destruct k as [|k]; [cbn in Hn; lia|].
  rewrite Nat.pow_succ_r', Nat.mul_comm. apply Nat.Div0.mod_mul.
Qed.

Lemma is_pow2_half (n : nat) :
  (2 <= n)%nat -> Nat.modulo n 2 = 0%nat -> (is_pow2 n <-> is_pow2 (Nat.div n 2)).
Proof.
  intros Hn He. split; intros [k Hk].
  - destruct k as [|k]; [cbn in Hk; lia|]. exists k.
    rewrite Hk, Nat.pow_succ_r', Nat.mul_comm. apply Nat.div_mul. lia.
  - exists (S k). rewrite Nat.pow_succ_r', <- Hk.
    pose proof (Nat.div_mod_eq n 2). lia.
Qed.

Lemma flat_map_pair_length {A B} (f g : A -> B) (l : list A) :
  List.length (flat_map (fun i => [f i; g i]) l) = (2 * List.length l)%nat.
Proof. induction l as [|a l IH]; cbn [flat_map List.length app]; lia. Qed.

Section Generic.
Context {T : Type} `{Arith T}.

Lemma dct_fuel_spec (fuel : nat) :
  forall v : list T,
    (List.length v <= fuel)%nat ->
    match dct_fuel fuel v with
    | Ok r => is_pow2 (List.length v) /\ List.length r = List.length v
    | Raise e => ~ is_pow2 (List.length v) /\ e = ValueError
    end.
Proof.
  induction fuel as [|fuel IH]; intros v Hle.
  - destruct v; [|cbn in Hle; lia]. cbn. split; [apply not_is_pow2_0 | reflexivity].
  - cbn [dct_fuel].
    destruct (Nat.eqb_spec (List.length v) 1) as [E1|N1].
    { rewrite E1. split; [apply is_pow2_1 | reflexivity]. }
    destruct (Nat.eqb_spec (List.length v) 0) as [E0|N0].
    { cbn [orb]. rewrite E0. split; [apply not_is_pow2_0 | reflexivity]. }
    destruct (Nat.eqb_spec (Nat.modulo (List.length v) 2) 0) as [Ev|Od].
    + cbn [orb negb].
      set (n := List.length v) in *.
      set (alpha := map (fun i => add (nth i v zero) (from_end v i)) (seq 0 (Nat.div n 2))).
      set (beta := map (fun i => div (sub (nth i v zero) (from_end v i)) (coef i n))
                       (seq 0 (Nat.div n 2))).
      assert (Hla : List.length alpha = Nat.div n 2)
        by (unfold alpha; now rewrite length_map, length_seq).
      assert (Hlb : List.length beta = Nat.div n 2)
        by (unfold beta; now rewrite length_map, length_seq).
      assert (Hhalf : (Nat.div n 2 <= fuel)%nat).
      { pose proof (Nat.div_mod_eq n 2). lia. }
      pose proof (IH alpha ltac:(lia)) as Ha.
      pose proof (IH beta ltac:(lia)) as Hb.
      rewrite Hla in Ha. rewrite Hlb in Hb.
      pose proof (is_pow2_half n ltac:(lia) Ev) as Hp.
      destruct (dct_fuel fuel alpha) as [a|ea].
      * destruct Ha as [Hpa Hlena]. unfold bind at 1.
        destruct (dct_fuel fuel beta) as [b|eb]; [|tauto].
        destruct Hb as [_ Hlenb]. unfold bind.
        split; [tauto|].
        rewrite length_app, flat_map_pair_length, length_seq. cbn [List.length].
        pose proof (Nat.div_mod_eq n 2). lia.
      * destruct Ha as [Hna ->]. unfold bind. split; [tauto | reflexivity].
    + cbn [orb negb]. split; [|reflexivity].
      intros Hp. apply Od. apply is_pow2_even; [lia | exact Hp].
Qed.

(** The recursion bound is never reached. *)
Lemma dct_never_out_of_fuel (v : list T) : dct v <> Raise OutOfFuel.
Proof.
  unfold dct. pose proof (dct_fuel_spec (List.length v) v (Nat.le_refl _)) as Hs.
  destruct (dct_fuel (List.length v) v) as [r|e]; [discriminate|].
  destruct Hs as [_ ->]. discriminate.
Qed.

(** C7.  [dct v] returns a list, of the same length as [v], exactly when
    the length of [v] is a power of two (at least 1); for every other
    length -- zero, odd, or even but not a power of two -- it raises
    [ValueError].  This holds whatever the arithmetic on the elements
    is. *)
Theorem C7_dct_succeeds_iff_power_of_two (v : list T) :
  match dct v with
  | Ok r => is_pow2 (List.length v) /\ List.length r = List.length v
  | Raise e => ~ is_pow2 (List.length v) /\ e = ValueError
  end.
Proof. unfold dct. apply dct_fuel_spec. apply Nat.le_refl. Qed.

End Generic.

End DCTFacts.

(** ** The transform computes the DCT-II *)

Module DCTRealFacts.
Import DCT DCTReal.
Local Open Scope R_scope.

(** *** Finite sums *)









(** *** Cosines *)





(** *** One level of the recursion *)






(** *** The result vector *)








End DCTRealFacts.

(** ** More on the [Code] value object *)

Module ModelsReprFacts.
Import Codec Models Text ModelsRepr.

(** *** Copies *)

Section WithExternal.
Context `{Ext : External}.

(** X1.  Copying a [Code] with the constructor, or building one from the tuple
    of its items, gives the same head and body back. *)
Theorem Code_copy_round_trip (x : IsccAny) (c : Code) :
  Code_init x = Ok c ->
  Code_init (AnyCode c) = Ok c /\ Code_init (AnyTuple (Code_iter c)) = Ok c.
Proof.
  intros Hinit. destruct (ModelsFacts.Code_init_body x c Hinit) as [data Hbody].
  destruct c as [h body]. cbn [_body] in Hbody. subst body.
  unfold Code_init, Code_iter, hash_bytes. cbn [_head _body bind fst snd].
  rewrite tobytes_frombytes. split; reflexivity.
Qed.

(** X2.  Building a [Code] from the raw bytes of a [Code] with a valid header
    gives the same head and body back. *)
Theorem Code_bytes_round_trip (x : IsccAny) (c : Code) :
  Code_init x = Ok c ->
  header_ok subtype_ok (_head c) = true ->
  Code_init (AnyBytes (Code_bytes c)) = Ok c.
Proof.
  intros Hinit Hok. destruct (ModelsFacts.Code_init_body x c Hinit) as [data Hbody].
  destruct c as [h body]. cbn [_head _body] in *. subst body.
  unfold Code_init. rewrite ModelsFacts.Code_bytes_frombytes.
  rewrite HeaderFacts.read_write_header by assumption. reflexivity.
Qed.

End WithExternal.

Lemma Code_copy_round_trip_witness :
  Code_init (Ext := Samples.sample_external) (AnyCode Samples.meta_code)
  = Ok Samples.meta_code
  /\ Code_init (Ext := Samples.sample_external)
       (AnyTuple (Code_iter Samples.meta_code)) = Ok Samples.meta_code.
Proof.
  apply (Code_copy_round_trip (Ext := Samples.sample_external)
           (AnyTuple (MT_META, ST_NONE, VS_V0, 1, Samples.sample_body))).
  reflexivity.
Defined.

Lemma Code_bytes_round_trip_witness :
  Code_init (Ext := Samples.sample_external) (AnyBytes (Code_bytes Samples.meta_code))
  = Ok Samples.meta_code.
Proof.
  apply (Code_bytes_round_trip (Ext := Samples.sample_external)
           (AnyTuple (MT_META, ST_NONE, VS_V0, 1, Samples.sample_body)));
    reflexivity.
Defined.

(** *** Hamming distance *)

Lemma count_diff_sym (a : bitarray) : forall b, count_diff a b = count_diff b a.
Proof.
  induction a as [|x a IH]; intros [|y b]; cbn [count_diff]; try reflexivity.
  now rewrite IH, xorb_comm.
Qed.

Lemma count_diff_self (a : bitarray) : count_diff a a = 0.
Proof.
  induction a as [|x a IH]; cbn [count_diff]; [reflexivity|].
  rewrite xorb_nilpotent, IH. reflexivity.
Qed.

Lemma count_diff_range (a : bitarray) :
  forall b, 0 <= count_diff a b <= Z.of_nat (List.length a).
Proof.
  induction a as [|x a IH]; intros [|y b]; cbn [count_diff List.length]; try lia.
  specialize (IH b). destruct (xorb x y); lia.
Qed.

Lemma count_diff_zero (a : bitarray) :
  forall b, List.length a = List.length b -> count_diff a b = 0 -> a = b.
Proof.
  induction a as [|x a IH]; intros [|y b] Hl Hd; try discriminate; try reflexivity.
  cbn [count_diff] in Hd. injection Hl as Hl.
  pose proof (count_diff_range a b) as Hr.
  destruct x, y; cbn [xorb] in Hd; try lia; f_equal; apply IH; auto; lia.
Qed.

Lemma count_diff_triangle (a : bitarray) :
  forall b c,
    List.length a = List.length b -> List.length b = List.length c ->
    count_diff a c <= count_diff a b + count_diff b c.
Proof.
  induction a as [|x a IH]; intros [|y b] [|z c] Hab Hbc; try discriminate;
    cbn [count_diff]; try lia.
  injection Hab as Hab. injection Hbc as Hbc.
  specialize (IH b c Hab Hbc). destruct x, y, z; cbn [xorb]; lia.
Qed.

(** X3.  The distance does not depend on the order of the operands, and a
    [Code] is at distance zero from itself. *)
Theorem Code_xor_symmetric (a b : Code) :
  Code_xor a b = Code_xor b a /\ Code_xor a a = Ok 0.
Proof.
  unfold Code_xor, count_xor. split.
  - rewrite (Nat.eqb_sym (List.length (_body b))), count_diff_sym. reflexivity.
  - now rewrite Nat.eqb_refl, count_diff_self.
Qed.

(** X4.  A distance, when there is one, lies between zero and the number of
    bits of the body, and it is zero exactly when the two bodies are the
    same. *)
Theorem Code_xor_range (a b : Code) (d : Z) :
  Code_xor a b = Ok d ->
  0 <= d <= Z.of_nat (List.length (_body a))
  /\ (d = 0 <-> _body a = _body b).
Proof.
  unfold Code_xor, count_xor.
  destruct (Nat.eqb_spec (List.length (_body a)) (List.length (_body b))) as [Hl|];
    [|discriminate].
  intros E. injection E as <-. split; [apply count_diff_range|].
  split.
  - now apply count_diff_zero.
  - intros ->. apply count_diff_self.
Qed.

(** X5.  The triangle inequality: when the distances from [a] to [b] and from
    [b] to [c] exist, so does the distance from [a] to [c], and it is at
    most their sum. *)
Theorem Code_xor_triangle (a b c : Code) (d1 d2 : Z) :
  Code_xor a b = Ok d1 -> Code_xor b c = Ok d2 ->
  exists d3 : Z, Code_xor a c = Ok d3 /\ d3 <= d1 + d2.
Proof.
  unfold Code_xor, count_xor.
  destruct (Nat.eqb_spec (List.length (_body a)) (List.length (_body b))) as [Hab|];
    [|discriminate].
  destruct (Nat.eqb_spec (List.length (_body b)) (List.length (_body c))) as [Hbc|];
    [|discriminate].
  intros E1 E2. injection E1 as <-. injection E2 as <-.
  replace (Nat.eqb (List.length (_body a)) (List.length (_body c))) with true
    by (symmetry; apply Nat.eqb_eq; congruence).
  eexists. split; [reflexivity|]. now apply count_diff_triangle.
Qed.

Lemma Code_xor_range_witness :
  0 <= 2 <= Z.of_nat (List.length (_body Samples.meta_code))
  /\ (2 = 0 <-> _body Samples.meta_code = _body Samples.data_code).
Proof.
  apply (Code_xor_range Samples.meta_code Samples.data_code 2). reflexivity.
Defined.

Lemma Code_xor_triangle_witness :
  exists d3 : Z, Code_xor Samples.meta_code Samples.meta_code = Ok d3 /\ d3 <= 2 + 2.
Proof.
  apply (Code_xor_triangle Samples.meta_code Samples.data_code Samples.meta_code 2 2);
    reflexivity.
Defined.

(** *** Equality and hash *)

Lemma encode_base32_inj (a b : bytes) : encode_base32 a = encode_base32 b -> a = b.
Proof.
  intros E. apply (f_equal decode_base32) in E.
  rewrite !CodecFacts.decode_encode_base32 in E. now injection E.
Qed.

(** Two codes are equal, as [Code.__eq__] compares them, exactly when
    their raw bytes are the same. *)
Lemma Code_eq_bytes (a b : Code) :
  Code_eq a b = true <-> Code_bytes a = Code_bytes b.
Proof.
  unfold Code_eq, code. rewrite String.eqb_eq. split.
  - apply encode_base32_inj.
  - now intros ->.
Qed.

(** X6.  Equal codes have the same raw bytes and the same hash, as Python asks
    of [__eq__] and [__hash__]. *)
Theorem Code_eq_same_hash (a b : Code) :
  Code_eq a b = true -> Code_bytes a = Code_bytes b /\ Code_hash a = Code_hash b.
Proof.
  intros E. apply Code_eq_bytes in E. unfold Code_hash, uint. now rewrite E.
Qed.

Lemma Code_eq_same_hash_witness :
  Code_bytes Samples.meta_code = Code_bytes Samples.meta_code
  /\ Code_hash Samples.meta_code = Code_hash Samples.meta_code.
Proof.
  apply (Code_eq_same_hash Samples.meta_code Samples.meta_code).
  vm_compute. reflexivity.
Defined.

(** *** Integers *)

Lemma fold_bits_app (l1 l2 : bitarray) (acc : Z) :
  fold_left (fun a (b : bool) => 2 * a + (if b then 1 else 0)) (l1 ++ l2) acc
  = fold_left (fun a (b : bool) => 2 * a + (if b then 1 else 0)) l2
      (fold_left (fun a (b : bool) => 2 * a + (if b then 1 else 0)) l1 acc).
Proof. apply fold_left_app. Qed.

Lemma fold_bits_acc (l : bitarray) :
  forall acc : Z,
    fold_left (fun a (b : bool) => 2 * a + (if b then 1 else 0)) l acc
    = acc * 2 ^ Z.of_nat (List.length l) + Z_of_bits l.
Proof.
  unfold Z_of_bits. induction l as [|b l IH]; intros acc.
  - cbn. lia.
  - cbn [fold_left List.length]. rewrite (IH (2 * acc + _)), (IH (2 * 0 + _)).
    rewrite Nat2Z.inj_succ, Z.pow_succ_r by lia. ring.
Qed.

Lemma Z_of_bits_app (l1 l2 : bitarray) :
  Z_of_bits (l1 ++ l2) = Z_of_bits l1 * 2 ^ Z.of_nat (List.length l2) + Z_of_bits l2.
Proof.
  unfold Z_of_bits at 1. rewrite fold_bits_app, fold_bits_acc. reflexivity.
Qed.

Lemma Z_of_bits_range (l : bitarray) : 0 <= Z_of_bits l < 2 ^ Z.of_nat (List.length l).
Proof.
  induction l as [|b l IH] using rev_ind; [cbn; lia|].
  rewrite Z_of_bits_app, length_app. cbn [List.length].
  rewrite Nat2Z.inj_add, Z.pow_add_r by lia.
  change (2 ^ Z.of_nat 1) with 2.
  assert (Hb : 0 <= Z_of_bits [b] <= 1) by (destruct b; cbn; lia). nia.
Qed.

Lemma Z_of_bits_byte (b : byte) : Z_of_bits (bits_of_byte b) = Z_of_byte b.
Proof. destruct b; reflexivity. Qed.

Lemma int_from_bytes_bits (data : bytes) : int_from_bytes data = Z_of_bits (frombytes data).
Proof.
  induction data as [|b data IH] using rev_ind; [reflexivity|].
  unfold int_from_bytes in *. rewrite fold_left_app. cbn [fold_left].
  rewrite IH, frombytes_app, Z_of_bits_app.
  unfold frombytes at 3 4. cbn [flat_map]. rewrite app_nil_r.
  rewrite bits_of_byte_length, Z_of_bits_byte. change (2 ^ Z.of_nat 8) with 256. ring.
Qed.

(** X7.  The integer form of a [Code] is the integer of its header bytes,
    shifted left by the number of bits of the body, plus the integer
    [hash_uint] returns for the body, which is below two to the number of
    bits of the body.  [hash_uint] returns for every body that is not
    empty; for an empty body [ba2int] refuses the empty bit array and the
    integer form is that of the header alone. *)
Theorem uint_header_and_body `{Ext : External} (x : IsccAny) (c : Code) :
  Code_init x = Ok c ->
  (forall h : Z,
      hash_uint c = Ok h ->
      uint c = int_from_bytes (header_bytes c) * 2 ^ Z.of_nat (List.length (_body c)) + h
      /\ 0 <= h < 2 ^ Z.of_nat (List.length (_body c)))
  /\ (hash_bytes c <> [] -> exists h : Z, hash_uint c = Ok h)
  /\ (hash_bytes c = [] ->
      hash_uint c = Raise ValueError /\ uint c = int_from_bytes (header_bytes c)).
Proof.
  intros Hinit. destruct (ModelsFacts.Code_init_body x c Hinit) as [data Hbody].
  assert (Hu : uint c = int_from_bytes (header_bytes c)
                        * 2 ^ Z.of_nat (List.length (_body c))
                        + Z_of_bits (_body c)).
  { unfold uint, Code_bytes.
    rewrite !int_from_bytes_bits, frombytes_app, Z_of_bits_app.
    rewrite Hbody, tobytes_frombytes. reflexivity. }
  unfold hash_uint, ba2int, hash_bytes. split; [|split].
  - intros h Hh. destruct (_body c) as [|b0 body] eqn:Eb; [discriminate|].
    injection Hh as <-. split; [exact Hu | apply Z_of_bits_range].
  - intros Hne. destruct (_body c) as [|b0 body]; [now contradiction Hne | eauto].
  - intros He. rewrite Hbody, tobytes_frombytes in He. subst data.
    rewrite Hu, Hbody. cbn. split; [reflexivity | lia].
Qed.

Lemma uint_header_and_body_witness :
  (forall h : Z,
      hash_uint Samples.meta_code = Ok h ->
      uint Samples.meta_code
      = int_from_bytes (header_bytes Samples.meta_code)
        * 2 ^ Z.of_nat (List.length (_body Samples.meta_code)) + h
      /\ 0 <= h < 2 ^ Z.of_nat (List.length (_body Samples.meta_code)))
  /\ (hash_bytes Samples.meta_code <> [] ->
      exists h : Z, hash_uint Samples.meta_code = Ok h)
  /\ (hash_bytes Samples.meta_code = [] ->
      hash_uint Samples.meta_code = Raise ValueError
      /\ uint Samples.meta_code = int_from_bytes (header_bytes Samples.meta_code)).
Proof.
  apply (uint_header_and_body (Ext := Samples.sample_external)
           (AnyTuple (MT_META, ST_NONE, VS_V0, 1, Samples.sample_body))).
  reflexivity.
Defined.

(** *** Hexadecimal and multiformat text *)

Lemma string_of_list_ascii_app (l1 l2 : list ascii) :
  string_of_list_ascii (l1 ++ l2)
  = (string_of_list_ascii l1 ++ string_of_list_ascii l2)%string.
Proof. induction l1 as [|a l1 IH]; cbn; [reflexivity | now rewrite IH]. Qed.

Lemma hex_app (a b : bytes) : hex (a ++ b) = (hex a ++ hex b)%string.
Proof. unfold hex. now rewrite flat_map_app, string_of_list_ascii_app. Qed.

Lemma ba2hex_byte (b : byte) (rest : bitarray) :
  ba2hex (bits_of_byte b ++ rest)
  = digits <- ba2hex rest ;;
    Ok (hex_digit (Z_of_byte b / 16) :: hex_digit (Z_of_byte b mod 16) :: digits).
Proof.
  destruct b; cbv [bits_of_byte Byte.to_bits]; cbn [app ba2hex];
    destruct (ba2hex rest); reflexivity.
Qed.

Lemma ba2hex_frombytes (data : bytes) :
  ba2hex (frombytes data)
  = Ok (flat_map (fun b => [hex_digit (Z_of_byte b / 16); hex_digit (Z_of_byte b mod 16)])
                 data).
Proof.
  induction data as [|b data IH]; [reflexivity|].
  unfold frombytes in *. cbn [flat_map]. rewrite ba2hex_byte, IH. reflexivity.
Qed.

(** X8.  The hex form of a [Code] is the hex form of its header followed by
    [hash_hex], which never fails on a constructed [Code] and is the hex
    form of the hash bytes. *)
Theorem hex_header_and_hash `{Ext : External} (x : IsccAny) (c : Code) :
  Code_init x = Ok c ->
  hash_hex c = Ok (hex (hash_bytes c))
  /\ Code_hex c = (hex (header_bytes c) ++ hex (hash_bytes c))%string.
Proof.
  intros Hinit. destruct (ModelsFacts.Code_init_body x c Hinit) as [data Hbody].
  unfold hash_hex, Code_hex, Code_bytes, hash_bytes. rewrite hex_app, Hbody.
  rewrite ba2hex_frombytes, tobytes_frombytes. split; reflexivity.
Qed.

Lemma hex_header_and_hash_witness :
  hash_hex Samples.meta_code = Ok (hex (hash_bytes Samples.meta_code))
  /\ Code_hex Samples.meta_code
     = (hex (header_bytes Samples.meta_code) ++ hex (hash_bytes Samples.meta_code))%string.
Proof.
  apply (hex_header_and_hash (Ext := Samples.sample_external)
           (AnyTuple (MT_META, ST_NONE, VS_V0, 1, Samples.sample_body))).
  reflexivity.
Defined.

Lemma ascii_upper_lower (c : ascii) : ascii_upper (ascii_lower c) = ascii_upper c.
Proof. destruct c as [[] [] [] [] [] [] [] []]; reflexivity. Qed.

Lemma b32_values_lower (cs : list ascii) :
  b32_values (map ascii_lower cs) = b32_values cs.
Proof.
  induction cs as [|c cs IH]; [reflexivity|].
  cbn [map b32_values]. unfold b32_value. now rewrite ascii_upper_lower, IH.
Qed.

(** Base32 text is read without regard to case. *)
Lemma decode_base32_lower (s : string) : decode_base32 (lower s) = decode_base32 s.
Proof.
  unfold decode_base32, lower.
  rewrite list_ascii_of_string_of_list_ascii, length_map, b32_values_lower.
  reflexivity.
Qed.

(** Lower-casing an encoded text gives lower-case letters and the digits
    2 to 7, and loses nothing: upper-casing gives the encoded text back. *)
Lemma lower_encode_base32 (data : bytes) :
  Forall (fun ch => In ch b32_lower_alphabet)
         (list_ascii_of_string (lower (encode_base32 data)))
  /\ upper (lower (encode_base32 data)) = encode_base32 data.
Proof.
  pose proof (CodecFacts.encode_base32_alphabet data) as Ha.
  assert (Hb : forallb (fun ch => existsb (Ascii.eqb (ascii_lower ch)) b32_lower_alphabet
                                  && Ascii.eqb (ascii_upper (ascii_lower ch)) ch)
                       b32_alphabet = true) by (vm_compute; reflexivity).
  rewrite forallb_forall in Hb.
  unfold upper, lower. rewrite !list_ascii_of_string_of_list_ascii.
  rewrite <- (string_of_list_ascii_of_string (encode_base32 data)) at 3.
  induction Ha as [|ch l Hch _ [IH1 IH2]]; [split; [constructor | reflexivity]|].
  specialize (Hb ch Hch). apply andb_prop in Hb. destruct Hb as [Hin Hup].
  apply existsb_exists in Hin. destruct Hin as (y & Hy & Ey).
  apply Ascii.eqb_eq in Ey. apply Ascii.eqb_eq in Hup.
  cbn [map]. split.
  - constructor; [now rewrite Ey | exact IH1].
  - cbn [string_of_list_ascii]. rewrite Hup. f_equal. exact IH2.
Qed.

(** X9.  The multiformat forms: base16 is [f], the hex of the prefix [cc01]
    and the hex of the code; base32 is [b] followed by a text of
    lower-case letters and digits 2 to 7 that is the lower-case of the
    base32 form of the prefixed bytes ([0xCC 0x01], header, body):
    upper-casing it gives that form back, and it decodes to those
    bytes. *)
Theorem multiformat_forms (c : Code) :
  mf_base16 c = ("fcc01" ++ Code_hex c)%string
  /\ exists text : string,
      mf_base32 c = String "b" text
      /\ Forall (fun ch => In ch b32_lower_alphabet) (list_ascii_of_string text)
      /\ upper text
         = encode_base32 ([xcc; x01] ++ header_bytes c ++ hash_bytes c)%list
      /\ decode_base32 text = Ok ([xcc; x01] ++ header_bytes c ++ hash_bytes c)%list.
Proof.
  split.
  - unfold mf_base16, mc_bytes, Code_hex. rewrite hex_app. reflexivity.
  - exists (lower (encode_base32 (mc_bytes c))).
    destruct (lower_encode_base32 (mc_bytes c)) as [Hl Hu].
    split; [reflexivity|]. split; [exact Hl|]. split; [exact Hu|].
    rewrite decode_base32_lower. apply CodecFacts.decode_encode_base32.
Qed.

(** The multiformat forms of the sample Meta-Code. *)
Example multiformat_forms_sample :
  mf_base16 Samples.meta_code = "fcc010001652ce5bb645fb5a4"%string
  /\ mf_base32 Samples.meta_code = "bzqaqaalffts3wzc7wwsa"%string.
Proof. split; vm_compute; reflexivity. Qed.

End ModelsReprFacts.

(** ** More on [trim_text] and the Meta-Code generator *)

Module TrimTextFacts.
Import Text CodeMeta.
Import ZifyBool.

Lemma encode_utf8_encodable (s : ustr) (data : bytes) :
  encode_utf8 s = Ok data -> encodable s.
Proof.
  revert data. induction s as [|c s IH]; intros data E; [constructor|].
  cbn [encode_utf8] in E. destruct (is_scalar c) eqn:Hc; [|discriminate].
  destruct (encode_utf8 s) as [bs|]; [|discriminate].
  constructor; [exact Hc | now apply (IH bs)].
Qed.

Lemma utf8_char_length (c : Z) : (1 <= List.length (utf8_char c))%nat.
Proof.
  unfold utf8_char.
  destruct (c <? 0x80); [|destruct (c <? 0x800); [|destruct (c <? 0x10000)]];
    cbn [List.length]; lia.
Qed.

(** Decoding a whole encoding gives the text back. *)
Lemma decode_utf8_bytes (s : ustr) : encodable s -> decode_ignore (utf8_bytes s) = s.
Proof.
  induction 1 as [|c s Hc _ IH]; [reflexivity|].
  unfold utf8_bytes in *. cbn [flat_map].
  now rewrite TextFacts.decode_char, IH.
Qed.

(** Decoding a cut encoding gives the longest run of whole characters
    that fits. *)
Lemma decode_longest_prefix (s : ustr) :
  encodable s ->
  forall n : nat,
  exists k : nat,
    (k <= List.length s)%nat
    /\ decode_ignore (firstn n (utf8_bytes s)) = firstn k s
    /\ (List.length (utf8_bytes (firstn k s)) <= n)%nat
    /\ ((k < List.length s)%nat ->
        (n < List.length (utf8_bytes (firstn (S k) s)))%nat).
Proof.
  induction 1 as [|c s Hc _ IH]; intros n.
  - exists 0%nat. rewrite firstn_nil. cbn. repeat split; lia.
  - unfold utf8_bytes in *. cbn [flat_map]. rewrite firstn_app.
    destruct (Nat.lt_ge_cases n (List.length (utf8_char c))) as [Hlt|Hge].
    + exists 0%nat. replace (n - List.length (utf8_char c))%nat with 0%nat by lia.
      rewrite firstn_O, app_nil_r, TextFacts.decode_truncated by assumption.
      cbn [firstn flat_map List.length]. rewrite app_nil_r. repeat split; lia.
    + rewrite firstn_all2 by assumption. rewrite TextFacts.decode_char by assumption.
      destruct (IH (n - List.length (utf8_char c))%nat) as (k & Hk & Hd & Hl & Hm).
      exists (S k). cbn [firstn flat_map List.length]. rewrite Hd, !length_app.
      repeat split; try lia.
      intros Hlt. specialize (Hm ltac:(lia)). cbn [firstn] in Hm. lia.
Qed.

Lemma lstrip_head (s : ustr) (c : Z) (t : ustr) :
  lstrip s = c :: t -> py_isspace c = false.
Proof.
  induction s as [|x s IH]; cbn [lstrip]; [discriminate|].
  destruct (py_isspace x) eqn:Hx; [exact IH|].
  intros E. injection E as <- _. exact Hx.
Qed.

Lemma lstrip_fixed (s : ustr) :
  (forall c t, s = c :: t -> py_isspace c = false) -> lstrip s = s.
Proof.
  destruct s as [|c s]; intros Hs; [reflexivity|].
  cbn [lstrip]. now rewrite (Hs c s eq_refl).
Qed.

(** [strip] leaves no white space at either end. *)
Lemma strip_ends (s : ustr) :
  (forall c t, strip s = c :: t -> py_isspace c = false)
  /\ (forall c t, rev (strip s) = c :: t -> py_isspace c = false).
Proof.
  unfold strip. split; intros c t E.
  - destruct (TextFacts.lstrip_suffix (rev (lstrip s))) as [q Hq].
    apply (f_equal (@rev Z)) in Hq. rewrite rev_involutive, rev_app_distr, E in Hq.
    cbn [app] in Hq. now apply (lstrip_head s c (t ++ rev q)).
  - rewrite rev_involutive in E. now apply (lstrip_head _ c t E).
Qed.

Lemma strip_fixed (s : ustr) :
  (forall c t, s = c :: t -> py_isspace c = false) ->
  (forall c t, rev s = c :: t -> py_isspace c = false) ->
  strip s = s.
Proof.
  intros Hhead Hlast. unfold strip.
  rewrite (lstrip_fixed s Hhead), (lstrip_fixed (rev s) Hlast). apply rev_involutive.
Qed.

(** X10.  What [trim_text] returns for a budget of [n >= 0] bytes: the longest
    prefix of whole characters whose encoding fits in [n] bytes, with the
    white space at both ends removed. *)
Theorem trim_text_longest_prefix (text : ustr) (n : Z) :
  encodable text ->
  0 <= n ->
  exists k : nat,
    (k <= List.length text)%nat
    /\ trim_text text n = Ok (strip (firstn k text))
    /\ Z.of_nat (List.length (utf8_bytes (firstn k text))) <= n
    /\ ((k < List.length text)%nat ->
        n < Z.of_nat (List.length (utf8_bytes (firstn (S k) text)))).
Proof.
  intros Hs Hn. unfold trim_text.
  destruct (TextFacts.encode_utf8_scalar text Hs) as [Henc Hback].
  rewrite Henc. unfold bind, slice_to, decode_utf8_ignore.
  destruct (Z.ltb_spec n 0) as [|_]; [lia|].
  rewrite <- firstn_map, Hback.
  destruct (decode_longest_prefix text Hs (Z.to_nat n)) as (k & Hk & Hd & Hl & Hm).
  exists k. rewrite Hd. repeat split; try lia;
    intros Hlt; specialize (Hm Hlt); lia.
Qed.

Lemma trim_text_longest_prefix_witness :
  exists k : nat,
    (k <= 5)%nat
    /\ trim_text [0x48; 0xE9; 0x20AC; 0x20; 0x1F4A9] 8
       = Ok (strip (firstn k [0x48; 0xE9; 0x20AC; 0x20; 0x1F4A9]))
    /\ Z.of_nat (List.length (utf8_bytes (firstn k [0x48; 0xE9; 0x20AC; 0x20; 0x1F4A9]))) <= 8
    /\ ((k < 5)%nat ->
        8 < Z.of_nat (List.length
                        (utf8_bytes (firstn (S k) [0x48; 0xE9; 0x20AC; 0x20; 0x1F4A9])))).
Proof.
  apply (trim_text_longest_prefix [0x48; 0xE9; 0x20AC; 0x20; 0x1F4A9] 8).
  - repeat constructor.
  - lia.
Defined.

(** X11.  A text whose encoding fits in the budget is only stripped. *)
Theorem trim_text_fits (text : ustr) (n : Z) :
  encodable text ->
  Z.of_nat (List.length (utf8_bytes text)) <= n ->
  trim_text text n = Ok (strip text).
Proof.
  intros Hs Hn. unfold trim_text.
  destruct (TextFacts.encode_utf8_scalar text Hs) as [Henc Hback].
  rewrite Henc. unfold bind, slice_to, decode_utf8_ignore.
  destruct (Z.ltb_spec n 0) as [|_]; [lia|].
  rewrite firstn_all2 by (rewrite length_map; lia).
  now rewrite Hback, decode_utf8_bytes.
Qed.

Lemma trim_text_fits_witness :
  trim_text [0x20; 0x48; 0xE9; 0x20] 5 = Ok (strip [0x20; 0x48; 0xE9; 0x20]).
Proof.
  apply (trim_text_fits [0x20; 0x48; 0xE9; 0x20] 5).
  - repeat constructor.
  - vm_compute. discriminate.
Defined.

(** X12.  The result of [trim_text] has no white space at either end, and
    trimming it again with the same budget changes nothing. *)
Theorem trim_text_idempotent (text r : ustr) (n : Z) :
  0 <= n ->
  trim_text text n = Ok r ->
  (forall c t, r = c :: t -> py_isspace c = false)
  /\ (forall c t, rev r = c :: t -> py_isspace c = false)
  /\ trim_text r n = Ok r.
Proof.
  intros Hn E.
  assert (Hs : encodable text).
  { unfold trim_text in E. destruct (encode_utf8 text) as [data|] eqn:Hd; [|discriminate].
    now apply (encode_utf8_encodable text data). }
  destruct (trim_text_longest_prefix text n Hs Hn) as (k & _ & Hr & Hl & _).
  rewrite Hr in E. injection E as <-.
  destruct (strip_ends (firstn k text)) as [Hhead Hlast].
  split; [exact Hhead|]. split; [exact Hlast|].
  destruct (TextFacts.strip_infix (firstn k text)) as (pre & post & Hsplit).
  assert (Hf : encodable (firstn k text)).
  { unfold encodable in *. pose proof Hs as Hs'.
    rewrite <- (firstn_skipn k text) in Hs'. apply Forall_app in Hs'. tauto. }
  assert (Hstrip : encodable (strip (firstn k text))).
  { unfold encodable in *. rewrite Hsplit in Hf.
    apply Forall_app in Hf. destruct Hf as [_ Hf]. apply Forall_app in Hf. tauto. }
  rewrite trim_text_fits; [| exact Hstrip |].
  - now rewrite (strip_fixed _ Hhead Hlast).
  - rewrite Hsplit in Hl.
    rewrite !TextFacts.utf8_bytes_app, !length_app in Hl. lia.
Qed.

Lemma trim_text_idempotent_witness :
  (forall c t, [0x48; 0xE9; 0x20AC] = c :: t -> py_isspace c = false)
  /\ (forall c t, rev [0x48; 0xE9; 0x20AC] = c :: t -> py_isspace c = false)
  /\ trim_text [0x48; 0xE9; 0x20AC] 8 = Ok [0x48; 0xE9; 0x20AC].
Proof.
  apply (trim_text_idempotent [0x48; 0xE9; 0x20AC; 0x20; 0x1F4A9] [0x48; 0xE9; 0x20AC] 8).
  - lia.
  - reflexivity.
Defined.

End TrimTextFacts.

Module GenMetaMoreFacts.
Import Codec Text CodeMeta.

Lemma bind_ok_inv {A B} (m : result A) (k : A -> result B) (r : B) :
  bind m k = Ok r -> exists a : A, m = Ok a /\ k a = Ok r.
Proof. destruct m as [a|e]; [eauto | discriminate]. Qed.

(** The result of [trim_text] can be encoded, in at most [n] bytes. *)
Lemma trim_text_within (text r : ustr) (n : Z) :
  0 <= n -> trim_text text n = Ok r ->
  exists data : bytes, encode_utf8 r = Ok data /\ Z.of_nat (List.length data) <= n.
Proof.
  intros Hn E.
  assert (Hs : encodable text).
  { unfold trim_text in E. destruct (encode_utf8 text) as [data|] eqn:Hd; [|discriminate].
    now apply (TrimTextFacts.encode_utf8_encodable text data). }
  destruct (TrimTextFacts.trim_text_longest_prefix text n Hs Hn) as (k & _ & Hr & Hl & _).
  rewrite Hr in E. injection E as <-.
  destruct (TextFacts.strip_infix (firstn k text)) as (pre & post & Hsplit).
  assert (Hstrip : encodable (strip (firstn k text))).
  { unfold encodable in *. pose proof Hs as Hs'.
    rewrite <- (firstn_skipn k text) in Hs'. apply Forall_app in Hs'.
    destruct Hs' as [Hf _]. rewrite Hsplit in Hf.
    apply Forall_app in Hf. destruct Hf as [_ Hf]. apply Forall_app in Hf. tauto. }
  destruct (TextFacts.encode_utf8_scalar _ Hstrip) as [Henc _].
  eexists. split; [exact Henc|].
  rewrite length_map. rewrite Hsplit in Hl.
  rewrite !TextFacts.utf8_bytes_app, !length_app in Hl. lia.
Qed.

Section WithExternal.
Context `{Ext : External}.

(** X13.  The [bits] argument only selects how much of the digest the code
    carries: for two allowed bit lengths the generator returns the same
    name, description and metahash, and codes whose bodies are the first
    [bits / 8] bytes of one and the same digest. *)
Theorem gen_meta_code_v0_bits_truncate (name : option ustr) (description : pyval)
    (bits1 bits2 : Z) (r1 : ISCC) :
  valid_bits bits2 = true ->
  gen_meta_code_v0 name description bits1 = Ok r1 ->
  exists (r2 : ISCC) (digest : bytes),
    gen_meta_code_v0 name description bits2 = Ok r2
    /\ CodeMeta.name r2 = CodeMeta.name r1
    /\ CodeMeta.description r2 = CodeMeta.description r1
    /\ metahash r2 = metahash r1
    /\ iscc r1 = ("ISCC:" ++ encode_base32
                    (write_header (MT_META, ST_NONE, VS_V0, bits1 / 32 - 1)
                       ++ firstn (Z.to_nat (bits1 / 8)) digest)%list)%string
    /\ iscc r2 = ("ISCC:" ++ encode_base32
                    (write_header (MT_META, ST_NONE, VS_V0, bits2 / 32 - 1)
                       ++ firstn (Z.to_nat (bits2 / 8)) digest)%list)%string.
Proof.
  intros Hb2 E. unfold gen_meta_code_v0 in *.
  apply bind_ok_inv in E. destruct E as (name' & Hn & E).
  apply bind_ok_inv in E. destruct E as ([d payload] & Hd & E).
  cbv beta iota in E.
  apply bind_ok_inv in E. destruct E as (digest & Hs & E).
  apply bind_ok_inv in E. destruct E as (mcode & Hc & E).
  injection E as <-.
  unfold encode_component, encode_length in Hc.
  destruct (valid_bits bits1); [|discriminate].
  unfold bind in Hc. injection Hc as <-.
  eexists. exists digest. split.
  - rewrite Hn. unfold bind at 1. rewrite Hd. unfold bind at 1. cbv beta iota.
    rewrite Hs. unfold bind at 1.
    unfold encode_component, encode_length. rewrite Hb2. unfold bind. reflexivity.
  - cbn [CodeMeta.name CodeMeta.description metahash iscc]. repeat split; reflexivity.
Qed.

(** X14.  The texts the generator returns are bounded: a returned name is not
    empty and its encoding has at most 128 bytes; the description returned
    for a text description has at most 4096 bytes. *)
Theorem gen_meta_code_v0_text_bounds (name : option ustr) (description : pyval)
    (bits : Z) (r : ISCC) :
  gen_meta_code_v0 name description bits = Ok r ->
  (forall n, CodeMeta.name r = Some n ->
             n <> []
             /\ exists data, encode_utf8 n = Ok data
                             /\ Z.of_nat (List.length data) <= meta_trim_title)
  /\ (forall s d, description = PStr s -> CodeMeta.description r = Some d ->
                  exists data, encode_utf8 d = Ok data
                               /\ Z.of_nat (List.length data) <= meta_trim_extra).
Proof.
  intros E. unfold gen_meta_code_v0 in E.
  apply bind_ok_inv in E. destruct E as (name' & Hn & E).
  apply bind_ok_inv in E. destruct E as ([d payload] & Hd & E).
  cbv beta iota in E.
  apply bind_ok_inv in E. destruct E as (digest & Hs & E).
  apply bind_ok_inv in E. destruct E as (mcode & Hc & E).
  injection E as <-. cbn [CodeMeta.name CodeMeta.description].
  split.
  - intros n En. destruct name' as [|c t]; [discriminate|].
    injection En as <-. split; [discriminate|].
    apply (trim_text_within _ _ meta_trim_title ltac:(unfold meta_trim_title; lia) Hn).
  - intros s d0 -> Ed. destruct s as [|c s].
    + apply bind_ok_inv in Hd. destruct Hd as (p & _ & Hd). injection Hd as <- _.
      discriminate.
    + apply bind_ok_inv in Hd. destruct Hd as (p & _ & Hd).
      apply bind_ok_inv in Hd. destruct Hd as (d' & Ht & Hd). injection Hd as <- _.
      injection Ed as <-.
      apply (trim_text_within _ _ meta_trim_extra ltac:(unfold meta_trim_extra; lia) Ht).
Qed.

(** X15.  Of a bytes description only the first 4096 bytes enter the code: two
    descriptions that agree on them give the same code, name and
    description; the metahash is that of the whole description. *)
Theorem gen_meta_code_v0_bytes_truncated (name : option ustr) (b1 b2 : bytes)
    (bits : Z) (r1 : ISCC) :
  slice_to meta_trim_extra b1 = slice_to meta_trim_extra b2 ->
  gen_meta_code_v0 name (PBytes b1) bits = Ok r1 ->
  exists r2 : ISCC,
    gen_meta_code_v0 name (PBytes b2) bits = Ok r2
    /\ iscc r2 = iscc r1
    /\ CodeMeta.name r2 = CodeMeta.name r1
    /\ CodeMeta.description r2 = CodeMeta.description r1
    /\ metahash r1 = hex (blake3 b1)
    /\ metahash r2 = hex (blake3 b2).
Proof.
  intros Hcut E. unfold gen_meta_code_v0 in *.
  apply bind_ok_inv in E. destruct E as (name' & Hn & E).
  unfold bind at 1 in E. rewrite Hcut in E.
  apply bind_ok_inv in E. destruct E as (digest & Hs & E).
  apply bind_ok_inv in E. destruct E as (mcode & Hc & E).
  injection E as <-.
  eexists. split.
  - rewrite Hn. unfold bind at 1. unfold bind at 1. rewrite Hs. unfold bind at 1.
    rewrite Hc. unfold bind. reflexivity.
  - cbn [CodeMeta.name CodeMeta.description metahash iscc]. repeat split; reflexivity.
Qed.

End WithExternal.

Lemma gen_meta_code_v0_bits_truncate_witness :
  exists (r2 : ISCC) (digest : bytes),
    gen_meta_code_v0 (Ext := Samples.sample_external)
      (Some Samples.world) (PBytes []) 128 = Ok r2
    /\ CodeMeta.name r2 = CodeMeta.name Samples.empty_bytes_result
    /\ CodeMeta.description r2 = CodeMeta.description Samples.empty_bytes_result
    /\ metahash r2 = metahash Samples.empty_bytes_result
    /\ iscc Samples.empty_bytes_result
       = ("ISCC:" ++ encode_base32
            (write_header (MT_META, ST_NONE, VS_V0, 64 / 32 - 1)
               ++ firstn (Z.to_nat (64 / 8)) digest)%list)%string
    /\ iscc r2 = ("ISCC:" ++ encode_base32
                    (write_header (MT_META, ST_NONE, VS_V0, 128 / 32 - 1)
                       ++ firstn (Z.to_nat (128 / 8)) digest)%list)%string.
Proof.
  apply (gen_meta_code_v0_bits_truncate (Ext := Samples.sample_external)
           (Some Samples.world) (PBytes []) 64 128 Samples.empty_bytes_result).
  - reflexivity.
  - vm_compute. reflexivity.
Defined.

Lemma gen_meta_code_v0_text_bounds_witness :
  (forall n, CodeMeta.name SamplesMore.hello_world_result = Some n ->
             n <> []
             /\ exists data, encode_utf8 n = Ok data
                             /\ Z.of_nat (List.length data) <= meta_trim_title)
  /\ (forall s d, PStr Samples.world = PStr s ->
                  CodeMeta.description SamplesMore.hello_world_result = Some d ->
                  exists data, encode_utf8 d = Ok data
                               /\ Z.of_nat (List.length data) <= meta_trim_extra).
Proof.
  apply (gen_meta_code_v0_text_bounds (Ext := Samples.sample_external)
           (Some Samples.hello) (PStr Samples.world) 64 SamplesMore.hello_world_result).
  vm_compute. reflexivity.
Defined.

Lemma gen_meta_code_v0_bytes_truncated_witness :
  (List.length Samples.long_bytes_1 = 4097%nat
   /\ List.length Samples.long_bytes_2 = 4098%nat
   /\ nth 4096 Samples.long_bytes_1 x00 = x62
   /\ nth 4096 Samples.long_bytes_2 x00 = x63)
  /\ exists r1 r2 : ISCC,
      gen_meta_code_v0 (Ext := Samples.plain_external)
        (Some Samples.world) (PBytes Samples.long_bytes_1) 64 = Ok r1
      /\ gen_meta_code_v0 (Ext := Samples.plain_external)
           (Some Samples.world) (PBytes Samples.long_bytes_2) 64 = Ok r2
      /\ iscc r2 = iscc r1
      /\ CodeMeta.name r2 = CodeMeta.name r1
      /\ CodeMeta.description r2 = CodeMeta.description r1
      /\ metahash r1 = hex (@blake3 Samples.plain_external Samples.long_bytes_1)
      /\ metahash r2 = hex (@blake3 Samples.plain_external Samples.long_bytes_2).
Proof.
  split; [repeat split; vm_compute; reflexivity|].
  assert (H1 : exists r1 : ISCC,
             gen_meta_code_v0 (Ext := Samples.plain_external)
               (Some Samples.world) (PBytes Samples.long_bytes_1) 64 = Ok r1)
    by (eexists; vm_compute; reflexivity).
  destruct H1 as [r1 H1]. exists r1.
  destruct (gen_meta_code_v0_bytes_truncated (Ext := Samples.plain_external)
              (Some Samples.world) Samples.long_bytes_1 Samples.long_bytes_2 64 r1)
    as (r2 & H2 & Hrest).
  - vm_compute. reflexivity.
  - exact H1.
  - exists r2. split; [exact H1|]. split; [exact H2 | exact Hrest].
Defined.

(** With those two descriptions the codes agree and the metahashes
    differ. *)
Example gen_meta_code_v0_bytes_truncated_sample :
  hex (@blake3 Samples.plain_external Samples.long_bytes_1)
  <> hex (@blake3 Samples.plain_external Samples.long_bytes_2).
Proof. vm_compute. discriminate. Qed.

End GenMetaMoreFacts.

(** ** More on the video hash *)

Module VideoMoreFacts.
Import Codec CodeContentVideo.

Lemma fold_min_le (a : nat) (rows : list FrameSig) :
  (fold_right (fun x acc => Nat.min (List.length x) acc) a rows <= a)%nat
  /\ forall r, In r rows ->
       (fold_right (fun x acc => Nat.min (List.length x) acc) a rows <= List.length r)%nat.
Proof.
  induction rows as [|x rows [IHa IHr]]; cbn [fold_right]; split; try lia.
  - intros r [].
  - intros r [<-|Hr]; [lia|]. specialize (IHr r Hr). lia.
Qed.

Lemma min_length_le (rows : list FrameSig) (r : FrameSig) :
  In r rows -> (min_length rows <= List.length r)%nat.
Proof.
  destruct rows as [|x rows]; [intros []|].
  cbn [min_length]. destruct (fold_min_le (List.length x) rows) as [Ha Hr].
  intros [<-|Hin]; [exact Ha | now apply Hr].
Qed.

Lemma fold_min_all (m : nat) (rows : list FrameSig) :
  (forall r, In r rows -> List.length r = m) ->
  fold_right (fun x acc => Nat.min (List.length x) acc) m rows = m.
Proof.
  induction rows as [|x rows IH]; intros Hall; cbn [fold_right]; [reflexivity|].
  rewrite IH by (intros r Hr; apply Hall; now right).
  rewrite (Hall x) by now left. lia.
Qed.

Lemma min_length_all (m : nat) (rows : list FrameSig) :
  rows <> [] -> (forall r, In r rows -> List.length r = m) -> min_length rows = m.
Proof.
  destruct rows as [|x rows]; [contradiction|]. intros _ Hall.
  cbn [min_length]. rewrite (Hall x) by now left.
  apply fold_min_all. intros r Hr. apply Hall. now right.
Qed.

Lemma nth_firstn (m j : nat) (r : FrameSig) :
  (j < m)%nat -> nth j (firstn m r) 0 = nth j r 0.
Proof.
  revert j r. induction m as [|m IH]; intros j r Hj; [lia|].
  destruct r as [|x r]; [reflexivity|].
  destruct j as [|j]; [reflexivity|]. cbn [firstn nth]. apply IH. lia.
Qed.

(** Signatures of different lengths are not refused: the column sums
    reach as far as the shortest signature, and what the longer ones
    hold beyond that is ignored. *)
Lemma vecsum_truncates (sigs : list FrameSig) :
  List.length (vecsum sigs) = min_length sigs
  /\ (forall s, In s sigs -> (min_length sigs <= List.length s)%nat)
  /\ vecsum sigs = vecsum (map (firstn (min_length sigs)) sigs).
Proof.
  split; [unfold vecsum, zip_star; now rewrite !length_map, length_seq|].
  split; [intros s; apply min_length_le|].
  set (m := min_length sigs).
  assert (Hm : min_length (map (firstn m) sigs) = m).
  { destruct sigs as [|x sigs]; [reflexivity|].
    apply min_length_all; [discriminate|].
    intros r Hr. apply in_map_iff in Hr. destruct Hr as (r0 & <- & Hr0).
    rewrite length_firstn. pose proof (min_length_le (x :: sigs) r0 Hr0). fold m in H. lia. }
  unfold vecsum, zip_star. rewrite Hm. fold m. rewrite !map_map.
  apply map_ext_in. intros j Hj. apply in_seq in Hj. f_equal.
  rewrite map_map. apply map_ext. intros r. symmetry. apply nth_firstn. lia.
Qed.

Lemma map_nth_seq (s : FrameSig) :
  map (fun j => nth j s 0) (seq 0 (List.length s)) = s.
Proof.
  induction s as [|x s IH]; [reflexivity|].
  cbn [List.length seq map nth]. f_equal.
  rewrite <- seq_shift, map_map. exact IH.
Qed.

Lemma vecsum_single (s : FrameSig) : vecsum [s] = s.
Proof.
  unfold vecsum, zip_star. cbn [min_length fold_right]. rewrite map_map.
  rewrite <- (map_nth_seq s) at 2. apply map_ext. intros j.
  unfold sum. cbn [map fold_left]. lia.
Qed.

Lemma py_set_repeat (s : FrameSig) (n : nat) : py_set (repeat s (S n)) = [s].
Proof.
  unfold py_set. induction n as [|n IH]; [reflexivity|].
  change (repeat s (S (S n))) with (s :: repeat s (S n)).
  cbn [nodup]. destruct (in_dec (list_eq_dec Z.eq_dec) s (repeat s (S n))) as [_|Hn]; [exact IH|].
  exfalso. apply Hn. now left.
Qed.

Section WithExternal.
Context `{Ext : External}.

(** X18.  The video hash works on what is left of the distinct signatures
    after they are cut to the length of the shortest one. *)
Theorem hash_video_v0_truncates (frame_signatures : list FrameSig) :
  hash_video_v0 frame_signatures
  = wtahash (vecsum (map (firstn (min_length (py_set frame_signatures)))
                         (py_set frame_signatures)))
  /\ forall s, In s frame_signatures ->
       (min_length (py_set frame_signatures) <= List.length s)%nat.
Proof.
  destruct (vecsum_truncates (py_set frame_signatures)) as (_ & Hle & Heq).
  split.
  - unfold hash_video_v0. cbv zeta. now rewrite <- Heq.
  - intros s Hs. apply Hle. unfold py_set. now apply nodup_In.
Qed.

(** X19.  A video whose frames all have the same signature is hashed as that
    one signature. *)
Theorem hash_video_v0_constant (s : FrameSig) (n : nat) :
  hash_video_v0 (repeat s (S n)) = wtahash s.
Proof.
  unfold hash_video_v0. cbv zeta. now rewrite py_set_repeat, vecsum_single.
Qed.

End WithExternal.

End VideoMoreFacts.

(** ** The failures of the Meta-Code generator *)

Module GenMetaErrors.
Import Codec Text CodeMeta.

Lemma bind_raise_inv {A B} (m : result A) (k : A -> result B) (e : exn) :
  bind m k = Raise e -> m = Raise e \/ exists a : A, m = Ok a /\ k a = Raise e.
Proof.
  destruct m as [a|e']; cbn [bind]; intros E; [right; eauto|].
  left. now injection E as ->.
Qed.

Lemma encode_utf8_error (s : ustr) (e : exn) :
  encode_utf8 s = Raise e -> e = UnicodeEncodeError.
Proof.
  induction s as [|c s IH]; cbn [encode_utf8]; [discriminate|].
  destruct (is_scalar c); [|intros E; now injection E].
  destruct (encode_utf8 s); [discriminate|]. unfold bind. intros E.
  injection E as <-. now apply IH.
Qed.

Lemma trim_text_error (text : ustr) (n : Z) (e : exn) :
  trim_text text n = Raise e -> e = UnicodeEncodeError.
Proof.
  unfold trim_text. destruct (encode_utf8 text) eqn:E; [discriminate|].
  unfold bind. intros E'. injection E' as <-. now apply (encode_utf8_error text).
Qed.

Section WithExternal.
Context `{Ext : External}.

Lemma text_digests_error (grams : list ustr) (e : exn) :
  text_digests grams = Raise e -> e = UnicodeEncodeError.
Proof.
  unfold text_digests. induction grams as [|g grams IH]; cbn [mapM]; [discriminate|].
  destruct (encode_utf8 g) eqn:Eg.
  - unfold bind at 1 2. destruct (mapM _ grams); [discriminate|].
    unfold bind. intros E. injection E as <-. now apply IH.
  - unfold bind. intros E. injection E as <-. now apply (encode_utf8_error g).
Qed.

(** The errors of [soft_hash_meta_v0], by kind. *)
Lemma soft_hash_meta_v0_raises (title : ustr) (extra : pyval) (e : exn) :
  soft_hash_meta_v0 title extra = Raise e ->
  e = UnicodeEncodeError
  \/ (e = TypeError /\ extra = POther false)
  \/ (e = ValueError /\ extra = POther true).
Proof.
  unfold soft_hash_meta_v0, title_simhash. intros E.
  apply bind_raise_inv in E. destruct E as [E | (ht & _ & E)].
  - apply bind_raise_inv in E. destruct E as [E | (ds & _ & E)]; [|discriminate].
    left. now apply (text_digests_error _ e E).
  - destruct extra as [|[|c s]|[|b bs]|[|]]; cbn [is_empty_extra extra_simhash] in E;
      unfold bind at 1 in E; try discriminate.
    + apply bind_raise_inv in E. destruct E as [E | (he & _ & E)]; [|discriminate].
      apply bind_raise_inv in E. destruct E as [E | (ds & _ & E)]; [|discriminate].
      left. now apply (text_digests_error _ e E).
    + unfold bind in E. injection E as <-. right. right. split; reflexivity.
    + injection E as <-. right. left. split; reflexivity.
Qed.


(** X17.  [gen_meta_code_v0] fails only in three ways: with
    [UnicodeEncodeError] on a text that cannot be encoded, with
    [ValueError] on a description of the wrong type, and with
    [InvalidBitLength] on a bit length that is not allowed. *)
Theorem gen_meta_code_v0_failures (name : option ustr) (description : pyval)
    (bits : Z) (e : exn) :
  gen_meta_code_v0 name description bits = Raise e ->
  e = UnicodeEncodeError
  \/ (e = ValueError /\ exists hashable : bool, description = POther hashable)
  \/ (e = InvalidBitLength /\ valid_bits bits = false).
Proof.
  unfold gen_meta_code_v0. intros E.
  apply bind_raise_inv in E. destruct E as [E | (name' & _ & E)].
  { left. now apply (trim_text_error _ _ e E). }
  apply bind_raise_inv in E. destruct E as [E | ([d payload] & Hd & E)].
  { destruct description as [|[|c s]|b|h].
    - apply bind_raise_inv in E. destruct E as [E | (p & _ & E)]; [|discriminate].
      left. now apply (encode_utf8_error _ e E).
    - apply bind_raise_inv in E. destruct E as [E | (p & _ & E)]; [|discriminate].
      left. now apply (encode_utf8_error _ e E).
    - apply bind_raise_inv in E. destruct E as [E | (p & _ & E)].
      + left. now apply (encode_utf8_error _ e E).
      + apply bind_raise_inv in E. destruct E as [E | (t & _ & E)]; [|discriminate].
        left. now apply (trim_text_error _ _ e E).
    - discriminate.
    - injection E as <-. right. left. split; [reflexivity | now exists h]. }
  cbv beta iota in E.
  apply bind_raise_inv in E. destruct E as [E | (digest & _ & E)].
  { apply soft_hash_meta_v0_raises in E.
    destruct E as [E | [[_ ->] | [_ ->]]]; [now left | exfalso | exfalso];
      destruct description as [|[|c s]|b|h];
      try discriminate;
      try (apply GenMetaMoreFacts.bind_ok_inv in Hd; destruct Hd as (p & _ & Hd);
           try discriminate;
           apply GenMetaMoreFacts.bind_ok_inv in Hd; destruct Hd as (t & _ & Hd);
           discriminate). }
  apply bind_raise_inv in E. destruct E as [E | (mcode & _ & E)]; [|discriminate].
  right. right. unfold encode_component, encode_length in E.
  destruct (valid_bits bits); [discriminate|].
  unfold bind in E. injection E as <-. split; reflexivity.
Qed.

End WithExternal.


(** The three failures of [soft_hash_meta_v0] on sample inputs. *)
Example soft_hash_meta_v0_failures_samples :
  soft_hash_meta_v0 (Ext := Samples.sample_external) Samples.hello (POther false)
  = Raise TypeError
  /\ soft_hash_meta_v0 (Ext := Samples.sample_external) Samples.hello (POther true)
     = Raise ValueError
  /\ soft_hash_meta_v0 (Ext := Samples.sample_external) [0x48; 0xD800] (POther false)
     = Raise UnicodeEncodeError
  /\ soft_hash_meta_v0 (Ext := Samples.sample_external) Samples.hello (PStr [0x48; 0xD800])
     = Raise UnicodeEncodeError.
Proof. repeat split; vm_compute; reflexivity. Qed.

Lemma gen_meta_code_v0_failures_witness :
  InvalidBitLength = UnicodeEncodeError
  \/ (InvalidBitLength = ValueError
      /\ exists hashable : bool, PStr Samples.world = POther hashable)
  \/ (InvalidBitLength = InvalidBitLength /\ valid_bits 48 = false).
Proof.
  apply (gen_meta_code_v0_failures (Ext := Samples.sample_external)
           (Some Samples.hello) (PStr Samples.world) 48).
  vm_compute. reflexivity.
Defined.

End GenMetaErrors.
